(** * AstroImage: a shallow embedding of [astro_image.py]

    The class [AstroImage] is a facade over astropy, photutils, numpy and
    matplotlib.  The embedding keeps the control flow, the object store and
    the error behaviour of the Python code, and takes the routines of the
    collaborating libraries as the fields of one interface, [Library].

    - pixel arrays and headers are objects in a store and are reached
      through locations, so that in-place mutation and sharing are visible;
    - a method is a function from the store to an outcome and a store; an
      exception leaves the mutations made before it in place;
    - numbers of type float64 are Rocq's primitive binary64 floats. *)

From Stdlib Require Import Floats ZArith Lia.
From stdpp Require Import gmap strings list fin_maps.

(** ** Exceptions and outcomes *)

Inductive exn : Type :=
  | UnboundLocalError (var : string)
  | KeyError (key : string)
  | IndexError
  | TypeError
  | ValueError
  | AttributeError (attr : string)
  | FileNotFoundError (path : string)
  | FileExistsError (path : string)
  | LibraryError (msg : string).

(** [OutOfFuel] is not a Python outcome: it marks a run of the model whose
    loop budget was too small. *)
Inductive result (A : Type) : Type :=
  | Ok (a : A)
  | Err (e : exn)
  | OutOfFuel.
Arguments Ok {A} a.
Arguments Err {A} e.
Arguments OutOfFuel {A}.

(** ** Pixel arrays *)

Abbreviation loc := nat (only parsing).

(** The element buffer of an array, by dtype: floating point or integer. *)
Inductive pixels : Type :=
  | Float64 (d : list float)
  | Int64 (d : list Z).

(** A numpy scalar taken out of an array. *)
Inductive scalar : Type :=
  | FloatV (f : float)
  | IntV (z : Z).

(** [shape] is numpy's shape (slowest axis first); the buffer is in C order. *)
Record ndarray : Type := mk_ndarray { shape : list nat; data : pixels }.

Definition pixels_take (n : nat) (p : pixels) : pixels :=
  match p with Float64 d => Float64 (take n d) | Int64 d => Int64 (take n d) end.

Definition extent_product (s : list nat) : nat := foldr Nat.mul 1 s.

(** [a[0]]: the first block along the leading axis. *)
Definition getitem0 (a : ndarray) : result ndarray :=
  match shape a with
  | [] => Err IndexError
  | 0 :: _ => Err IndexError
  | S _ :: rest => Ok (mk_ndarray rest (pixels_take (extent_product rest) (data a)))
  end.

(** ** Headers and FITS files *)

Inductive card : Type :=
  | CInt (z : Z)
  | CFloat (f : float)
  | CStr (s : string)
  | CBool (b : bool).

Abbreviation header := (gmap string card).

(** [hdr.update(new)]: every card of [new] is set in [hdr]. *)
Definition header_update (hdr new : header) : header := new ∪ hdr.

(** A FITS file as its list of header-data units. *)
Abbreviation fits_file := (list (ndarray * header)).

(** ** Output *)

Inductive event : Type :=
  | PrintNot2D (n : nat) (ctype : list string)
  | PrintDropSuccess (n : nat) (ctype : list string)
  | PrintCritical (c : float)
  | PrintMode (count : nat) (value : scalar).

(** ** The store *)

Record store : Type := mk_store {
  arrays : gmap loc ndarray;
  headers : gmap loc header;
  files : gmap string fits_file;
  out : list event
}.

Definition M (A : Type) : Type := store → result A * store.

Definition raise {A} (e : exn) : M A := λ σ, (Err e, σ).
Definition out_of_fuel {A} : M A := λ σ, (OutOfFuel, σ).
Definition lift {A} (r : result A) : M A := λ σ, (r, σ).

#[global] Instance M_ret : MRet M := λ A (a : A) σ, (Ok a, σ).
#[global] Instance M_bind : MBind M := λ A B (k : A → M B) (m : M A) σ,
  match m σ with
  | (Ok a, σ') => k a σ'
  | (Err e, σ') => (Err e, σ')
  | (OutOfFuel, σ') => (OutOfFuel, σ')
  end.

#[global] Instance M_fmap : FMap M := λ A B (f : A → B) (m : M A),
  a ← m; mret (f a).

Definition print (e : event) : M unit :=
  λ σ, (Ok tt, mk_store (arrays σ) (headers σ) (files σ) (out σ ++ [e])).

Definition read_array (l : loc) : M ndarray :=
  λ σ, match arrays σ !! l with
       | Some a => (Ok a, σ)
       | None => (Err (AttributeError "hdu"), σ)
       end.

Definition write_array (l : loc) (a : ndarray) : M unit :=
  λ σ, (Ok tt, mk_store (<[l:=a]> (arrays σ)) (headers σ) (files σ) (out σ)).

Definition alloc_array (a : ndarray) : M loc :=
  λ σ, let l := fresh (dom (arrays σ)) in
       (Ok l, mk_store (<[l:=a]> (arrays σ)) (headers σ) (files σ) (out σ)).

Definition read_header (l : loc) : M header :=
  λ σ, match headers σ !! l with
       | Some h => (Ok h, σ)
       | None => (Err (AttributeError "hdr"), σ)
       end.

Definition write_header (l : loc) (h : header) : M unit :=
  λ σ, (Ok tt, mk_store (arrays σ) (<[l:=h]> (headers σ)) (files σ) (out σ)).

Definition alloc_header (h : header) : M loc :=
  λ σ, let l := fresh (dom (headers σ)) in
       (Ok l, mk_store (arrays σ) (<[l:=h]> (headers σ)) (files σ) (out σ)).

(** ** The collaborating libraries *)

Inductive overlap_mode : Type := Trim | Partial | Strict.

Class Library : Type := {
  WCS : Type;
  SkyCoord : Type;
  Aperture : Type;
  Figure : Type;
  (* astropy.wcs *)
  WCS_of_header : header → result WCS;
  naxis : WCS → nat;
  ctype : WCS → list string;
  array_shape : WCS → option (list nat);
  dropaxis : WCS → nat → result WCS;
  to_header : WCS → header;
  wcs_world2pix : WCS → list (list float) → Z → result (list (list float));
  pixel_to_world : WCS → list float → result SkyCoord;
  proj_plane_pixel_scales : WCS → list float;
  (* astropy.nddata.utils *)
  Cutout2D : ndarray → float * float → list float → WCS → overlap_mode →
             result (ndarray * WCS);
  (* astropy.io.fits: the header the writer stores with a primary HDU *)
  primary_header : ndarray → header → header;
  (* astropy.coordinates, photutils *)
  SkyCoord_fk5 : float → float → result SkyCoord;
  SkyCircularAperture : SkyCoord → float → result Aperture;
  aperture_sum : ndarray → Aperture → WCS → result float;
  (* astropy.stats *)
  lib_sigma_clipped_stats : ndarray → float → nat → result (float * float * float);
  (* numpy reductions and elementary functions *)
  np_mean : list nat → float;
  np_std : list nat → float;
  log10_positive : float → float;
  np_log : float → float;
  np_power : float → float → float;
  (* matplotlib *)
  render_preview : ndarray → WCS → string → float → result Figure;
  overlay_aperture : Figure → Aperture → WCS → float → float → result Figure
}.

(** ** numpy operations used by the class itself *)

Definition float_of_count (n : nat) : float :=
  PrimFloat.of_uint63 (Uint63.of_Z (Z.of_nat n)).

Definition float_of_Z (z : Z) : float :=
  if (z <? 0)%Z then (- PrimFloat.of_uint63 (Uint63.of_Z (- z)))%float
  else PrimFloat.of_uint63 (Uint63.of_Z z).

(** Equality and order as [np.unique] uses them on floats: all NaN fall into
    one class, which sorts after every number. *)
Definition float_same (x v : float) : bool :=
  (x =? v)%float || (is_nan x && is_nan v).
Definition float_before (x v : float) : bool :=
  (x <? v)%float || (is_nan v && negb (is_nan x)).

Section Unique.
Context {A : Type} (same before : A → A → bool).

Fixpoint insert_count (x : A) (l : list (A * nat)) : list (A * nat) :=
  match l with
  | [] => [(x, 1)]
  | (v, c) :: t =>
      if same x v then (v, S c) :: t
      else if before x v then (x, 1) :: (v, c) :: t
      else (v, c) :: insert_count x t
  end.

(** The sorted distinct values of [l], each with its number of occurrences. *)
Definition unique_counts (l : list A) : list (A * nat) :=
  foldl (λ acc x, insert_count x acc) [] l.
End Unique.

(** [np.unique(a, return_counts=True)] on the flattened array. *)
Definition np_unique (p : pixels) : list (scalar * nat) :=
  match p with
  | Float64 d => prod_map FloatV id <$> unique_counts float_same float_before d
  | Int64 d => prod_map IntV id <$> unique_counts Z.eqb Z.ltb d
  end.

(** [a == m], elementwise. *)
Definition np_equal (p : pixels) (m : scalar) : list bool :=
  match p, m with
  | Float64 d, FloatV f => (λ x, x =? f)%float <$> d
  | Float64 d, IntV z => (λ x, x =? float_of_Z z)%float <$> d
  | Int64 d, IntV z => (λ x, (x =? z)%Z) <$> d
  | Int64 d, FloatV f => (λ x, float_of_Z x =? f)%float <$> d
  end.

(** [a[mask] = np.nan]: an integer buffer cannot hold NaN. *)
Definition setitem_nan (p : pixels) (mask : list bool) : result pixels :=
  match p with
  | Float64 d => Ok (Float64 (zip_with (λ x (b : bool), if b then nan else x) d mask))
  | Int64 _ => Err ValueError
  end.

(** [a / b] on one-dimensional arrays, with numpy's broadcasting. *)
Definition np_divide (a b : list float) : result (list float) :=
  if (length a =? length b)%nat then Ok (zip_with PrimFloat.div a b)
  else match a, b with
       | [x], _ => Ok ((λ y, x / y)%float <$> b)
       | _, [y] => Ok ((λ x, x / y)%float <$> a)
       | _, _ => Err ValueError
       end.

(** [np.log10] on a float64: the IEEE special cases, and the library's value
    on positive finite numbers. *)
Definition np_log10 `{L : Library} (x : float) : float :=
  if is_nan x then nan
  else if (x <? 0)%float then nan
  else if (x =? 0)%float then neg_infinity
  else if (x =? infinity)%float then infinity
  else log10_positive x.

(** ** The class *)

Section AstroImage.
Context `{L : Library}.

Record Handle : Type := mk_Handle {
  url : string;
  ext : nat;
  hdu : loc;
  hdr : loc;
  wcs : WCS;
  pixel_scale : list float
}.

(** The keyword arguments of the constructor. *)
Record kwargs : Type := mk_kwargs {
  kw_hdu : option loc;
  kw_hdr : option loc;
  kw_wcs : option WCS;
  kw_pixel_scale : option (list float)
}.

Definition kwarg {A} (key : string) (v : option A) : M A :=
  match v with Some a => mret a | None => raise (KeyError key) end.

(** [fits.open(url)] and [hdulist[ext]]. *)
Definition fits_open (url : string) (ext : nat) : M (ndarray * header) :=
  λ σ, match files σ !! url with
       | None => (Err (FileNotFoundError url), σ)
       | Some hdulist =>
           match hdulist !! ext with
           | None => (Err IndexError, σ)
           | Some unit => (Ok unit, σ)
           end
       end.

(** [open_fits_image]: binds [self.hdu], [self.hdr] and [self.wcs]. *)
Definition open_fits_image (url : string) (ext : nat) : M (loc * loc * WCS) :=
  '(a, h) ← fits_open url ext;
  hdu ← alloc_array a;
  hdr ← alloc_header h;
  w ← lift (WCS_of_header h);
  mret (hdu, hdr, w).

(** [self.wcs.array_shape[0]]. *)
Definition leading_extent (w : WCS) : M nat :=
  match array_shape w with
  | None => raise TypeError
  | Some [] => raise IndexError
  | Some (n :: _) => mret n
  end.

(** The [while] loop of [__init__]; [self.hdr] stays the same object. *)
Fixpoint drop_axes (fuel : nat) (hdu hdr : loc) (w : WCS) : M (loc * WCS) :=
  match fuel with
  | O => out_of_fuel
  | S fuel' =>
      if negb (naxis w =? 2)%nat then
        n ← leading_extent w;
        if (n =? 1)%nat then
          a ← read_array hdu;
          a0 ← lift (getitem0 a);
          hdu' ← alloc_array a0;
          w' ← lift (dropaxis w (naxis w - 1));
          h ← read_header hdr;
          write_header hdr (header_update h (to_header w'));;
          drop_axes fuel' hdu' hdr w'
        else mret (hdu, w)
      else mret (hdu, w)
  end.

Definition scale_arcsec (w : WCS) : list float :=
  (λ s, s * 3600)%float <$> proj_plane_pixel_scales w.

(** [__init__] with [mode == 'file']. *)
Definition init_file (fuel : nat) (url : string) (ext : nat) (verbose : bool)
  : M Handle :=
  '(hdu0, hdr0, w0) ← open_fits_image url ext;
  (if negb (naxis w0 =? 2)%nat && verbose
   then print (PrintNot2D (naxis w0) (ctype w0)) else mret tt);;
  '(hdu1, w1) ← drop_axes fuel hdu0 hdr0 w0;
  (if (naxis w1 =? 2)%nat && verbose
   then print (PrintDropSuccess (naxis w1) (ctype w1))
   else (* [Exception(...)] is built here and dropped: nothing is raised *)
        mret tt);;
  mret (mk_Handle url ext hdu1 hdr0 w1 (scale_arcsec w1)).

(** [__init__] with [mode == 'data']. *)
Definition init_data (url : string) (ext : nat) (kw : kwargs) : M Handle :=
  hdu ← kwarg "hdu" (kw_hdu kw);
  hdr ← kwarg "hdr" (kw_hdr kw);
  w ← kwarg "wcs" (kw_wcs kw);
  ps ← kwarg "pixel_scale" (kw_pixel_scale kw);
  mret (mk_Handle url ext hdu hdr w ps).

(** [AstroImage(url, ext, mode, verbose, **kwargs)].  With any other mode
    the object gets a [url] and an [ext] and no image: [None] here. *)
Definition AstroImage (fuel : nat) (url : string) (ext : nat) (mode : string)
    (verbose : bool) (kw : kwargs) : M (option Handle) :=
  if String.eqb mode "file" then Some <$> init_file fuel url ext verbose
  else if String.eqb mode "data" then Some <$> init_data url ext kw
  else mret None.

(** [x, y = rows[0]]. *)
Definition first_row_xy (rows : list (list float)) : M (float * float) :=
  match rows with
  | [] => raise IndexError
  | [x; y] :: _ => mret (x, y)
  | _ :: _ => raise ValueError
  end.

(** [cutout(coord, box)]: [box] in arcsec. *)
Definition cutout (self : Handle) (coord box : list float) : M Handle :=
  rows ← lift (wcs_world2pix (wcs self) [coord] 0);
  xy ← first_row_xy rows;
  box ← lift (np_divide box (pixel_scale self));
  a ← read_array (hdu self);
  '(data_crop, wcs_crop) ← lift (Cutout2D a xy box (wcs self) Partial);
  h ← read_header (hdr self);
  write_header (hdr self) (header_update h (to_header wcs_crop));;
  hdu_crop ← alloc_array data_crop;
  init_data "" 0
    (mk_kwargs (Some hdu_crop) (Some (hdr self)) (Some wcs_crop)
               (Some (pixel_scale self))).

(** [cutout_pixel(coord, box)]: [box] in pixels. *)
Definition cutout_pixel (self : Handle) (coord box : list float) : M Handle :=
  rows ← lift (wcs_world2pix (wcs self) [coord] 0);
  xy ← first_row_xy rows;
  a ← read_array (hdu self);
  '(data_crop, wcs_crop) ← lift (Cutout2D a xy box (wcs self) Partial);
  h ← read_header (hdr self);
  write_header (hdr self) (header_update h (to_header wcs_crop));;
  hdu_crop ← alloc_array data_crop;
  init_data "" 0
    (mk_kwargs (Some hdu_crop) (Some (hdr self)) (Some wcs_crop)
               (Some (pixel_scale self))).

(** [preview(color_map, gamma)]: the figure, not shown. *)
Definition preview (self : Handle) (color_map : string) (gamma : float)
  : M Figure :=
  a ← read_array (hdu self);
  lift (render_preview a (wcs self) color_map gamma).

(** [hdu.writeto(path, overwrite)] of astropy. *)
Definition writeto (path : string) (f : fits_file) (overwrite : bool) : M unit :=
  λ σ, match files σ !! path, overwrite with
       | Some _, false => (Err (FileExistsError path), σ)
       | _, _ => (Ok tt,
                  mk_store (arrays σ) (headers σ) (<[path:=f]> (files σ)) (out σ))
       end.

(** [save(url)]. *)
Definition save (self : Handle) (path : string) : M unit :=
  a ← read_array (hdu self);
  h ← read_header (hdr self);
  writeto path [(a, primary_header a h)] true.

(** The body of the [for] loop of [mask_blank], for one flagged value. *)
Definition mask_value (self : Handle) (mc : scalar * nat) : M unit :=
  print (PrintMode mc.2 mc.1);;
  a ← read_array (hdu self);
  let outregion := np_equal (data a) mc.1 in
  d ← lift (setitem_nan (data a) outregion);
  write_array (hdu self) (mk_ndarray (shape a) d).

Fixpoint mask_values (self : Handle) (modes : list (scalar * nat)) : M unit :=
  match modes with
  | [] => mret tt
  | mc :: rest => mask_value self mc;; mask_values self rest
  end.

Definition critical_counts (counts : list nat) (threshold : float) : float :=
  (np_mean counts + 5 * np_std counts + threshold)%float.

Definition exceeds (critical : float) (count : nat) : bool :=
  (critical <? float_of_count count)%float.

(** [mask_blank(threshold)]. *)
Definition mask_blank (self : Handle) (threshold : float) : M Handle :=
  a ← read_array (hdu self);
  let values_counts := np_unique (data a) in
  let critical := critical_counts (values_counts.*2) threshold in
  print (PrintCritical critical);;
  let modes := filter (λ vc, exceeds critical vc.2 = true) values_counts in
  mask_values self modes;;
  mret self.

Record Photometry : Type := mk_Photometry {
  phot_mag : float;
  phot_aperture : Aperture;
  phot_figure : option Figure
}.

Definition getitem {A} (l : list A) (i : nat) : M A :=
  match l !! i with Some a => mret a | None => raise IndexError end.

(** [-2.5 * np.log10(counts) + zeropoint]. *)
Definition magnitude (counts zeropoint : float) : float :=
  (-2.5 * np_log10 counts + zeropoint)%float.

(** [photometry(coord, r, mode, zeropoint, plot)].  The local variable
    [positions] is bound in two of the three branches only. *)
Definition photometry (self : Handle) (coord : list float) (r : float)
    (mode : string) (zeropoint : float) (plot : bool) : M Photometry :=
  positions ←
    (if String.eqb mode "pixel"
     then Some <$> lift (pixel_to_world (wcs self) coord)
     else if String.eqb mode "sky"
     then ra ← getitem coord 0;
          dec ← getitem coord 1;
          Some <$> lift (SkyCoord_fk5 ra dec)
     else mret None);
  pos ← match positions with
        | Some p => mret p
        | None => raise (UnboundLocalError "positions")
        end;
  aperture ← lift (SkyCircularAperture pos r);
  a ← read_array (hdu self);
  counts ← lift (aperture_sum a aperture (wcs self));
  let mag := magnitude counts zeropoint in
  if negb plot then mret (mk_Photometry mag aperture None)
  else
    fig ← preview self "gray_r" 1;
    fig' ← lift (overlay_aperture fig aperture (wcs self) mag r);
    mret (mk_Photometry mag aperture (Some fig')).

(** [sigma_clipped_stats(sigma, maxiters)]. *)
Definition sigma_clipped_stats (self : Handle) (sigma : float) (maxiters : nat)
  : M (float * float * float) :=
  a ← read_array (hdu self);
  lift (lib_sigma_clipped_stats a sigma maxiters).

(** [mag_err(mag, zeropoint, area)]. *)
Definition mag_err (self : Handle) (mag zeropoint area : float) : M float :=
  '(mean, median, stddev) ← sigma_clipped_stats self 2 5;
  let flux_err := (stddev * PrimFloat.sqrt area)%float in
  mret (2.5 / np_log 10 * flux_err
        / np_power 10 ((mag - zeropoint) / (-2.5)))%float.
End AstroImage.

(** ** The module-level helpers

    [gamma_correction] and [plot_beam] are plain functions of the source
    file.  They touch no object of the store; what they raise includes the
    [OverflowError] of [int()] on an infinite float. *)

Inductive raised : Type :=
  | Raised (e : exn)
  | OverflowError.

Definition and_then {A B} (r : raised + A) (k : A → raised + B) : raised + B :=
  match r with inl e => inl e | inr a => k a end.

(** [int(x)] on a float: truncation towards zero. *)
Definition py_int (x : float) : raised + Z :=
  match Prim2SF x with
  | S754_zero _ => inr 0%Z
  | S754_finite s m e =>
      inr (cond_Zopp s (if (0 <=? e)%Z then Z.pos m * 2 ^ e
                        else Z.pos m / 2 ^ (- e)))%Z
  | S754_infinity _ => inl OverflowError
  | S754_nan => inl (Raised ValueError)
  end.

(** [rows[k, :]] for a Python integer [k]: negative indices count from the
    end. *)
Definition getrow {A} (rows : list A) (k : Z) : raised + A :=
  let n := Z.of_nat (length rows) in
  let k' := if (k <? 0)%Z then (k + n)%Z else k in
  if ((0 <=? k') && (k' <? n))%Z
  then match rows !! Z.to_nat k' with
       | Some r => inr r
       | None => inl (Raised IndexError)
       end
  else inl (Raised IndexError).

(** [rows[i, :] = r] for [i] from [range]. *)
Definition setrow {A} (rows : list A) (i : nat) (r : A) : raised + list A :=
  if (i <? length rows)%nat then inr (<[i := r]> rows)
  else inl (Raised IndexError).

(** matplotlib's colour maps: [cm.get_cmap(name, n)] sampled at
    [np.linspace(0, 1, n)], one RGBA row per sample. *)
Class Palettes : Type := {
  colour : Type;
  sample_cmap : string → nat → raised + list colour
}.

Section Helpers.
Context `{L : Library} `{P : Palettes}.

(** [int(255 * np.power(i/255, gamma))]. *)
Definition gamma_index (gamma : float) (i : nat) : raised + Z :=
  py_int (255 * np_power (float_of_count i / 255) gamma)%float.

(** The [for] loop of [gamma_correction] over the indices [todo]. *)
Fixpoint recolour {A} (de_color : list A) (gamma : float) (todo : list nat)
    (newcolors : list A) : raised + list A :=
  match todo with
  | [] => inr newcolors
  | i :: rest =>
      and_then (gamma_index gamma i) (λ k,
      and_then (getrow de_color k) (λ r,
      and_then (setrow newcolors i r) (λ newcolors',
      recolour de_color gamma rest newcolors')))
  end.

(** [gamma_correction(colorbar, gamma)]: the rows of the new colour map. *)
Definition gamma_correction (colorbar : string) (gamma : float)
  : raised + list colour :=
  and_then (sample_cmap colorbar 256) (λ de_color,
  recolour de_color gamma (seq 0 256) de_color).

Record Ellipse : Type := mk_Ellipse {
  ell_xy : float * float;
  ell_width : float;
  ell_height : float;
  ell_angle : float
}.

(** [3600. * header[key]]. *)
Definition beam_axis (h : header) (key : string) : raised + float :=
  match h !! key with
  | None => inl (Raised (KeyError key))
  | Some (CFloat f) => inr (3600 * f)%float
  | Some (CInt z) => inr (3600 * float_of_Z z)%float
  | Some (CBool b) => inr (3600 * (if b then 1 else 0))%float
  | Some (CStr _) => inl (Raised TypeError)
  end.

(** [header["BPA"]], as the format [{:.2f}] and the negation take it. *)
Definition beam_angle (h : header) : raised + float :=
  match h !! "BPA" with
  | None => inl (Raised (KeyError "BPA"))
  | Some (CFloat f) => inr f
  | Some (CInt z) => inr (float_of_Z z)
  | Some (CBool b) => inr (if b then 1 else 0)%float
  | Some (CStr _) => inl (Raised ValueError)
  end.

(** [plot_beam(ax, header, xy)]: the three numbers it prints and the patch
    it adds to the axes. *)
Definition plot_beam (h : header) (xy : float * float)
  : raised + (float * float * float) * Ellipse :=
  and_then (beam_axis h "BMAJ") (λ BMAJ,
  and_then (beam_axis h "BMIN") (λ BMIN,
  and_then (beam_angle h) (λ BPA,
  inr ((BMAJ, BMIN, BPA), mk_Ellipse xy BMIN BMAJ (- BPA)%float)))).
End Helpers.

(** The number of elements of a buffer, and the arrays whose buffer fills
    their shape. *)
Definition pixels_length (p : pixels) : nat :=
  match p with Float64 d => length d | Int64 d => length d end.

Definition well_formed (a : ndarray) : Prop :=
  pixels_length (data a) = extent_product (shape a).

(** ** A reference instance of the interface

    A small executable instance over which the model runs on concrete
    inputs.  Its routines are simple stand-ins with the shape of the library
    routines (a linear transform, a nearest-pixel crop, unclipped
    statistics); they are not the libraries' algorithms. *)

Module Reference.

(** A linear transform: per-axis reference pixel and step, FITS axis order. *)
Record ref_wcs : Type := mk_ref_wcs {
  rw_naxis : nat;
  rw_pixel_shape : option (list nat);
  rw_crpix : list float;
  rw_cdelt : list float
}.

Definition axis_key (prefix : string) (j : nat) : string :=
  prefix +:+ String (Ascii.ascii_of_nat (48 + j)) "".

Definition card_nat (h : header) (key : string) : option nat :=
  match h !! key with Some (CInt z) => Some (Z.to_nat z) | _ => None end.

Definition card_float (h : header) (key : string) (default : float) : float :=
  match h !! key with
  | Some (CFloat f) => f
  | Some (CInt z) => float_of_Z z
  | _ => default
  end.

(** The highest axis [j <= n] for which a [CDELTj] card is present. *)
Fixpoint highest_cdelt (h : header) (n : nat) : nat :=
  match n with
  | O => O
  | S n' => match h !! axis_key "CDELT" n with
            | Some _ => n
            | None => highest_cdelt h n'
            end
  end.

Definition header_naxis (h : header) : nat :=
  let n := Nat.max (Nat.max (default 0 (card_nat h "NAXIS"))
                            (default 0 (card_nat h "WCSAXES"))) (highest_cdelt h 9) in
  if (n =? 0)%nat then 2 else n.

Definition header_pixel_shape (h : header) : option (list nat) :=
  match card_nat h "NAXIS" with
  | None | Some O => None
  | Some n => Some ((λ j, default 0 (card_nat h (axis_key "NAXIS" j))) <$> seq 1 n)
  end.

Definition ref_WCS_of_header (h : header) : result ref_wcs :=
  let n := header_naxis h in
  Ok (mk_ref_wcs n (header_pixel_shape h)
        ((λ j, card_float h (axis_key "CRPIX" j) 0) <$> seq 1 n)
        ((λ j, card_float h (axis_key "CDELT" j) 1) <$> seq 1 n)).

Definition ref_array_shape (w : ref_wcs) : option (list nat) :=
  reverse <$> rw_pixel_shape w.

Definition ref_dropaxis (w : ref_wcs) (k : nat) : result ref_wcs :=
  if (k <? rw_naxis w)%nat then
    Ok (mk_ref_wcs (rw_naxis w - 1) (delete k <$> rw_pixel_shape w)
          (delete k (rw_crpix w)) (delete k (rw_cdelt w)))
  else Err IndexError.

Definition axis_cards (prefix : string) (vs : list float) : header :=
  list_to_map (imap (λ i v, (axis_key prefix (S i), CFloat v)) vs).

Definition ref_to_header (w : ref_wcs) : header :=
  <["WCSAXES" := CInt (Z.of_nat (rw_naxis w))]>
    (axis_cards "CRPIX" (rw_crpix w) ∪ axis_cards "CDELT" (rw_cdelt w)).

Definition world2pix_row (w : ref_wcs) (row : list float) : list float :=
  zip_with (λ c ps, c / ps.2 + ps.1 - 1)%float row (zip (rw_crpix w) (rw_cdelt w)).

Definition ref_wcs_world2pix (w : ref_wcs) (rows : list (list float)) (origin : Z)
  : result (list (list float)) :=
  if forallb (λ row, length row =? rw_naxis w)%nat rows
  then Ok (world2pix_row w <$> rows)
  else Err ValueError.

Definition ref_pixel_to_world (w : ref_wcs) (pix : list float)
  : result (float * float) :=
  match zip_with (λ p ps, (p - ps.1 + 1) * ps.2)%float pix
          (zip (rw_crpix w) (rw_cdelt w)) with
  | [ra; dec] => Ok (ra, dec)
  | _ => Err ValueError
  end.

(** Nearest integer, halves upwards. *)
Definition round_Z (x : float) : Z :=
  match Prim2SF (x + 0.5)%float with
  | S754_finite s m e =>
      let v := if (0 <=? e)%Z then (Z.pos m * 2 ^ e)%Z else (Z.pos m / 2 ^ (- e))%Z in
      if s then (- v - (if (Z.pos m mod 2 ^ (- e) =? 0)%Z then 0 else 1))%Z else v
  | _ => 0%Z
  end.

Definition pixel_at (d : list float) (width height : nat) (row col : Z) : option float :=
  if ((0 <=? row) && (row <? Z.of_nat height) && (0 <=? col) && (col <? Z.of_nat width))%Z
  then d !! (Z.to_nat row * width + Z.to_nat col)%nat
  else None.

(** A crop of [ny] by [nx] pixels around [(x, y)]; [size] is [(ny, nx)]. *)
Definition ref_Cutout2D (a : ndarray) (xy : float * float) (size : list float)
    (w : ref_wcs) (mode : overlap_mode) : result (ndarray * ref_wcs) :=
  match shape a, data a, size with
  | [height; width], Float64 d, [sy; sx] =>
      let ny := Z.to_nat (round_Z sy) in
      let nx := Z.to_nat (round_Z sx) in
      let row0 := (round_Z xy.2 - Z.of_nat ny / 2)%Z in
      let col0 := (round_Z xy.1 - Z.of_nat nx / 2)%Z in
      let cells := r ← seq 0 ny; c ← seq 0 nx;
                   [pixel_at d width height (row0 + Z.of_nat r) (col0 + Z.of_nat c)] in
      if ((ny =? 0) || (nx =? 0))%nat then Err ValueError
      else if forallb (λ o, negb (bool_decide (is_Some o))) cells
      then Err (LibraryError "NoOverlapError")
      else if forallb (λ o, bool_decide (is_Some o)) cells
      then Ok (mk_ndarray [ny; nx] (Float64 (default nan <$> cells)),
               mk_ref_wcs (rw_naxis w) (Some [nx; ny])
                 (zip_with (λ p o, p - float_of_Z o)%float (rw_crpix w) [col0; row0])
                 (rw_cdelt w))
      else match mode with
           | Partial =>
               Ok (mk_ndarray [ny; nx] (Float64 (default nan <$> cells)),
                   mk_ref_wcs (rw_naxis w) (Some [nx; ny])
                     (zip_with (λ p o, p - float_of_Z o)%float (rw_crpix w) [col0; row0])
                     (rw_cdelt w))
           | Trim | Strict => Err (LibraryError "PartialOverlapError")
           end
  | _, _, _ => Err ValueError
  end.

Definition ref_primary_header (a : ndarray) (h : header) : header :=
  let cleared := foldr (λ j acc, delete (axis_key "NAXIS" j) acc) h (seq 1 9) in
  <["NAXIS" := CInt (Z.of_nat (length (shape a)))]>
    (list_to_map (imap (λ i n, (axis_key "NAXIS" (S i), CInt (Z.of_nat n)))
                    (reverse (shape a))) ∪ cleared).

Definition float_sum (l : list float) : float :=
  foldl PrimFloat.add 0%float l.

Definition float_mean (l : list float) : float :=
  (float_sum l / float_of_count (length l))%float.

Definition float_std (l : list float) : float :=
  let m := float_mean l in
  PrimFloat.sqrt (float_mean ((λ x, (x - m) * (x - m))%float <$> l)).

Definition pixels_as_floats (p : pixels) : list float :=
  match p with Float64 d => d | Int64 d => float_of_Z <$> d end.

(** The sum of the pixels whose centre lies within [r] arcsec of the position. *)
Definition ref_aperture_sum (a : ndarray) (ap : float * float * float) (w : ref_wcs)
  : result float :=
  match shape a, world2pix_row w [ap.1.1; ap.1.2], rw_cdelt w with
  | [height; width], [x; y], s :: _ =>
      let rad := (ap.2 / (s * 3600))%float in
      Ok (float_sum
            (omap id (imap (λ i v,
               let dx := (float_of_count (i mod width) - x)%float in
               let dy := (float_of_count (i / width) - y)%float in
               if (dx * dx + dy * dy <=? rad * rad)%float then Some v else None)
               (pixels_as_floats (data a)))))
  | _, _, _ => Err ValueError
  end.

Definition ref_sigma_clipped_stats (a : ndarray) (sigma : float) (maxiters : nat)
  : result (float * float * float) :=
  let d := filter (λ x, is_nan x = false) (pixels_as_floats (data a)) in
  Ok (float_mean d, float_mean d, float_std d).

(** Natural logarithm and exponential by truncated series. *)
Definition series_ln (x : float) : float :=
  let '(m, e) := Z.frexp x in
  let t := ((m - 1) / (m + 1))%float in
  let odd := foldr (λ k acc, (acc * t * t + 1 / float_of_count (2 * k + 1))%float)
               0%float (seq 0 40) in
  (2 * t * odd + float_of_Z e * 0x1.62e42fefa39efp-1)%float.

Definition series_exp (x : float) : float :=
  let y := Z.ldexp x (-10) in
  let s := foldr (λ k acc, (1 + acc * y / float_of_count (S k))%float) 1%float (seq 0 20) in
  Nat.iter 10 (λ v, v * v)%float s.

#[export] Instance library : Library := {|
  WCS := ref_wcs;
  SkyCoord := float * float;
  Aperture := float * float * float;
  Figure := list string;
  WCS_of_header := ref_WCS_of_header;
  naxis := rw_naxis;
  ctype := λ w, (λ j, axis_key "AXIS" j) <$> seq 1 (rw_naxis w);
  array_shape := ref_array_shape;
  dropaxis := ref_dropaxis;
  to_header := ref_to_header;
  wcs_world2pix := ref_wcs_world2pix;
  pixel_to_world := ref_pixel_to_world;
  proj_plane_pixel_scales := rw_cdelt;
  Cutout2D := ref_Cutout2D;
  primary_header := ref_primary_header;
  SkyCoord_fk5 := λ ra dec, Ok (ra, dec);
  SkyCircularAperture := λ pos r,
    if (0 <? r)%float then Ok (pos, r) else Err ValueError;
  aperture_sum := ref_aperture_sum;
  lib_sigma_clipped_stats := ref_sigma_clipped_stats;
  np_mean := λ counts, float_mean (float_of_count <$> counts);
  np_std := λ counts, float_std (float_of_count <$> counts);
  log10_positive := λ x, (series_ln x / series_ln 10)%float;
  np_log := series_ln;
  np_power := λ b x, series_exp (x * series_ln b)%float;
  render_preview := λ a w color_map gamma, Ok ["image"; color_map];
  overlay_aperture := λ fig ap w mag r, Ok (fig ++ ["aperture"; "label"])
|}.

(** A 3 x 4 float image behind one singleton axis, and its file. *)
Definition cube_data : list float :=
  [0; 0; 0; 0;
   0; 5; 7; 0;
   0; 0; 0; 0]%float.

Definition cube : ndarray := mk_ndarray [1; 3; 4] (Float64 cube_data).

Definition cube_header : header :=
  list_to_map [("NAXIS", CInt 3); ("NAXIS1", CInt 4); ("NAXIS2", CInt 3);
               ("NAXIS3", CInt 1); ("CDELT1", CFloat 0.5); ("CDELT2", CFloat 0.5);
               ("CRPIX1", CFloat 1); ("CRPIX2", CFloat 1)].

Definition image : ndarray := mk_ndarray [3; 4] (Float64 cube_data).

(** Two planes of 2 x 2 pixels: three axes, none of them a singleton. *)
Definition stack : ndarray :=
  mk_ndarray [2; 2; 2] (Float64 [1; 2; 3; 4; 5; 6; 7; 8]%float).

Definition stack_header : header :=
  list_to_map [("NAXIS", CInt 3); ("NAXIS1", CInt 2); ("NAXIS2", CInt 2);
               ("NAXIS3", CInt 2)].

Definition image_header : header :=
  list_to_map [("NAXIS", CInt 2); ("NAXIS1", CInt 4); ("NAXIS2", CInt 3);
               ("CDELT1", CFloat 0.5); ("CDELT2", CFloat 0.5);
               ("CRPIX1", CFloat 1); ("CRPIX2", CFloat 1)].

(** An empty store but for three files. *)
Definition disk : store :=
  mk_store ∅ ∅
    (list_to_map [("cube.fits", [(cube, cube_header)]);
                  ("image.fits", [(image, image_header)]);
                  ("stack.fits", [(stack, stack_header)])]) [].

(** The handle of [image.fits], with the image at location 0 and its
    header at location 0, and the store after loading it. *)
Definition image_wcs : ref_wcs :=
  mk_ref_wcs 2 (Some [4; 3]) [1; 1]%float [0.5; 0.5]%float.

Definition image_handle : Handle :=
  mk_Handle "image.fits" 0 0 0 image_wcs [1800; 1800]%float.

Definition loaded : store :=
  mk_store {[ 0 := image ]} {[ 0 := image_header ]} (files disk) [].

(** A cutout of 2 x 2 pixels around the pixel (0, 0) of the image: three of
    its four pixels lie outside the image. *)
Definition corner_crop : ndarray :=
  mk_ndarray [2; 2] (Float64 [nan; nan; nan; 0]%float).

Definition corner_wcs : ref_wcs :=
  mk_ref_wcs 2 (Some [2; 2]) [2; 2]%float [0.5; 0.5]%float.

Definition corner_child : Handle :=
  mk_Handle "" 0 1 0 corner_wcs [1800; 1800]%float.

Definition after_corner_cutout : store :=
  mk_store (<[1 := corner_crop]> {[ 0 := image ]})
           {[ 0 := header_update image_header (ref_to_header corner_wcs) ]}
           (files disk) [].

(** The handle of [stack.fits] and the store after loading it. *)
Definition stack_wcs : ref_wcs :=
  mk_ref_wcs 3 (Some [2; 2; 2]) [0; 0; 0]%float [1; 1; 1]%float.

Definition stack_handle : Handle :=
  mk_Handle "stack.fits" 0 0 0 stack_wcs [3600; 3600; 3600]%float.

Definition after_stack : store :=
  mk_store {[ 0 := stack ]} {[ 0 := stack_header ]} (files disk)
           [PrintNot2D 3 ["AXIS1"; "AXIS2"; "AXIS3"]].

(** The transform of [cube.fits] as parsed from its header. *)
Definition cube_wcs : ref_wcs :=
  mk_ref_wcs 3 (Some [4; 3; 1]) [1; 1; 0]%float [0.5; 0.5; 1]%float.

(** An integer image in which the value 0 dominates. *)
Definition int_image : ndarray := mk_ndarray [2; 2] (Int64 [0; 0; 0; 1]%Z).

Definition int_handle : Handle := mk_Handle "" 0 0 0 image_wcs [1800; 1800]%float.

Definition int_store : store :=
  mk_store {[ 0 := int_image ]} {[ 0 := image_header ]} ∅ [].

Definition int_store_after : store :=
  mk_store {[ 0 := int_image ]} {[ 0 := image_header ]} ∅
           [PrintCritical 2; PrintMode 3 (IntV 0)].

(** The float image after masking its dominant value 0. *)
Definition image_masked : ndarray :=
  mk_ndarray [3; 4]
    (Float64 [nan; nan; nan; nan; nan; 5; 7; nan; nan; nan; nan; nan]%float).

Definition after_mask : store :=
  mk_store {[ 0 := image_masked ]} {[ 0 := image_header ]} (files disk)
           [PrintCritical (critical_counts [10; 1; 1] (-20)); PrintMode 10 (FloatV 0)].

(** An aperture of half a pixel around the pixel (0, 0), whose value is 0. *)
Definition blank_aperture : Aperture := (0, 0, 900)%float.

(** The image written to [copy.fits], and read back. *)
Definition image_saved : store :=
  mk_store {[ 0 := image ]} {[ 0 := image_header ]}
    (<["copy.fits" := [(image, ref_primary_header image image_header)] ]>
       (files disk)) [].

Definition image_reopened : Handle :=
  mk_Handle "copy.fits" 0 1 1 image_wcs [1800; 1800]%float.

Definition image_reopened_store : store :=
  mk_store (<[1 := image]> {[ 0 := image ]})
    (<[1 := ref_primary_header image image_header]> {[ 0 := image_header ]})
    (files image_saved) [].

(** The cube wrapped as it is, in data mode: array, header and transform
    agree, and the transform has three axes. *)
Definition cube_store : store :=
  mk_store {[ 0 := cube ]} {[ 0 := cube_header ]} ∅ [].

Definition cube_kwargs : kwargs :=
  mk_kwargs (Some 0) (Some 0) (Some cube_wcs) (Some [1800; 1800; 3600]%float).

Definition cube_handle : Handle :=
  mk_Handle "" 0 0 0 cube_wcs [1800; 1800; 3600]%float.

Definition cube_saved : store :=
  mk_store {[ 0 := cube ]} {[ 0 := cube_header ]}
    {[ "copy.fits" := [(cube, ref_primary_header cube cube_header)] ]} [].

Definition cube_reopened : Handle :=
  mk_Handle "copy.fits" 0 2 1 image_wcs [1800; 1800]%float.

(** A grey ramp: the sample [i] of any colour map is the number [i]. *)
#[export] Instance palettes : Palettes := {|
  colour := nat;
  sample_cmap := λ name n, inr (seq 0 n)
|}.

(** A header with the three beam keywords. *)
Definition beam_header : header :=
  list_to_map [("BMAJ", CFloat 0.5); ("BMIN", CFloat 0.25); ("BPA", CFloat 30)].

(** The store after loading [image.fits] from [disk], quietly and verbosely. *)
Definition image_loaded (verbose : bool) : store :=
  mk_store {[ 0 := image ]} {[ 0 := image_header ]} (files disk)
           (if verbose then [PrintDropSuccess 2 ["AXIS1"; "AXIS2"]] else []).

(** A file whose header declares three transform axes and no array axes. *)
Definition bare_header : header := list_to_map [("WCSAXES", CInt 3)].

Definition bare_disk : store :=
  mk_store ∅ ∅ (list_to_map [("bare.fits", [(image, bare_header)])]) [].

Definition bare_loaded : store :=
  mk_store {[ 0 := image ]} {[ 0 := bare_header ]} (files bare_disk) [].

(** The handle of [cube.fits]: the reduced array is the object 1. *)
Definition cube_loaded_handle : Handle :=
  mk_Handle "cube.fits" 0 1 0 image_wcs [1800; 1800]%float.

(** The cutout of the corner cutout, around its pixel (1, 1). *)
Definition corner_grandchild : Handle :=
  mk_Handle "" 0 2 0 corner_wcs [1800; 1800]%float.

(** An image without pixels. *)
Definition empty_image : ndarray := mk_ndarray [0; 4] (Float64 []).

Definition empty_store : store :=
  mk_store {[ 0 := empty_image ]} {[ 0 := image_header ]} ∅ [].

(** The grey ramp after a correction with gamma 2. *)
Definition ramp_gamma2 : list nat :=
  match gamma_correction "gray" 2 with inr rows => rows | inl _ => [] end.
End Reference.

(** ** The formulas of the specification

    Written from the words of the specification, to be compared with what
    the methods compute. *)

Section Formulas.
Context `{L : Library}.



(** The statements of [cutout] and of [cutout_pixel] from the call of
    [Cutout2D] on, which are the same text in both. *)
Definition crop_and_wrap (self : Handle) (xy : float * float) (box : list float)
  : M Handle :=
  a ← read_array (hdu self);
  '(data_crop, wcs_crop) ← lift (Cutout2D a xy box (wcs self) Partial);
  h ← read_header (hdr self);
  write_header (hdr self) (header_update h (to_header wcs_crop));;
  hdu_crop ← alloc_array data_crop;
  init_data "" 0
    (mk_kwargs (Some hdu_crop) (Some (hdr self)) (Some wcs_crop)
               (Some (pixel_scale self))).

(** The child object and the store a successful crop leaves. *)
Definition child_of (self : Handle) (σ : store) (wcs_crop : WCS) : Handle :=
  mk_Handle "" 0 (fresh (dom (arrays σ))) (hdr self) wcs_crop (pixel_scale self).

Definition store_after_crop (self : Handle) (σ : store) (h : header)
    (data_crop : ndarray) (wcs_crop : WCS) : store :=
  mk_store (<[fresh (dom (arrays σ)) := data_crop]> (arrays σ))
           (<[hdr self := header_update h (to_header wcs_crop)]> (headers σ))
           (files σ) (out σ).

(** [__init__] in file mode up to the end of its [while] loop. *)
Definition load_and_reduce (fuel : nat) (url : string) (ext : nat)
    (verbose : bool) : M (loc * loc * WCS) :=
  '(hdu0, hdr0, w0) ← open_fits_image url ext;
  (if negb (naxis w0 =? 2)%nat && verbose
   then print (PrintNot2D (naxis w0) (ctype w0)) else mret tt);;
  '(hdu1, w1) ← drop_axes fuel hdu0 hdr0 w0;
  mret (hdu1, hdr0, w1).

(** What astropy's [dropaxis] does to a transform that has one extent per
    axis, when the axis dropped is the last one: one axis less, and the
    array shape without its leading extent. *)
Definition dropaxis_law : Prop :=
  ∀ w m s0 rest,
    naxis w = S m → 2 ≤ m →
    array_shape w = Some (s0 :: rest) → length rest = m →
    ∃ w', dropaxis w m = Ok w' ∧ naxis w' = m ∧ array_shape w' = Some rest.

(** [reduced k w h w1 h1]: [k] times in a row the highest-index axis of the
    transform was dropped and the header updated from the reduced
    transform, leading from [w] and [h] to [w1] and [h1]. *)
Inductive reduced : nat → WCS → header → WCS → header → Prop :=
  | reduced_O w h : reduced 0 w h w h
  | reduced_S k w h w' w1 h1 :
      dropaxis w (naxis w - 1) = Ok w' →
      reduced k w' (header_update h (to_header w')) w1 h1 →
      reduced (S k) w h w1 h1.

(** A float buffer in which every pixel equal to one of the flagged values
    is NaN and every other pixel is as it was. *)
Definition masked (flagged : list float) (d : list float) : list float :=
  (λ x, if existsb (λ v, x =? v)%float flagged then nan else x) <$> d.

(** What the loop prints for one flagged value of a float array. *)
Definition mode_event (vc : float * nat) : event := PrintMode vc.2 (FloatV vc.1).

(** A computation that leaves the store as it found it, whatever it
    returns or raises. *)
Definition reads_only {A} (m : M A) : Prop :=
  ∀ σ r σ', m σ = (r, σ') → σ' = σ.
End Formulas.

(** * Properties *)

(** Closed equations between concrete runs are checked by evaluation. *)
Ltac vm_refl :=
  lazymatch goal with |- ?a = ?b => vm_cast_no_check (@eq_refl _ b) end.

(** ** Running the monad *)

Lemma bind_run {A B} (m : M A) (k : A → M B) σ :
  (m ≫= k) σ = match m σ with
               | (Ok a, σ') => k a σ'
               | (Err e, σ') => (Err e, σ')
               | (OutOfFuel, σ') => (OutOfFuel, σ')
               end.
Proof. reflexivity. Qed.

Lemma bind_ok {A B} (m : M A) (k : A → M B) σ a σ' :
  m σ = (Ok a, σ') → (m ≫= k) σ = k a σ'.
Proof. intros Hm. rewrite bind_run, Hm. reflexivity. Qed.

Lemma bind_err {A B} (m : M A) (k : A → M B) σ e σ' :
  m σ = (Err e, σ') → (m ≫= k) σ = (Err e, σ').
Proof. intros Hm. rewrite bind_run, Hm. reflexivity. Qed.

Lemma bind_ok_inv {A B} (m : M A) (k : A → M B) σ b σ2 :
  (m ≫= k) σ = (Ok b, σ2) → ∃ a σ1, m σ = (Ok a, σ1) ∧ k a σ1 = (Ok b, σ2).
Proof.
  rewrite bind_run. destruct (m σ) as [[a|e|] σ1]; intros Hk.
  - exists a, σ1. split; [reflexivity | exact Hk].
  - discriminate Hk.
  - discriminate Hk.
Qed.

Lemma bind_assoc_run {A B C} (m : M A) (k : A → M B) (k' : B → M C) σ :
  ((m ≫= k) ≫= k') σ = (m ≫= (λ a, k a ≫= k')) σ.
Proof. rewrite !bind_run. destruct (m σ) as [[a|e|] σ1]; reflexivity. Qed.

Lemma fmap_run {A B} (f : A → B) (m : M A) σ :
  (f <$> m) σ = match m σ with
                | (Ok a, σ') => (Ok (f a), σ')
                | (Err e, σ') => (Err e, σ')
                | (OutOfFuel, σ') => (OutOfFuel, σ')
                end.
Proof. reflexivity. Qed.

Lemma lift_run {A} (r : result A) σ : lift r σ = (r, σ).
Proof. reflexivity. Qed.

Lemma read_array_ok l a σ : arrays σ !! l = Some a → read_array l σ = (Ok a, σ).
Proof. intros Ha. unfold read_array. rewrite Ha. reflexivity. Qed.

Lemma read_header_ok l h σ : headers σ !! l = Some h → read_header l σ = (Ok h, σ).
Proof. intros Hh. unfold read_header. rewrite Hh. reflexivity. Qed.

Lemma read_array_inv l a σ σ' :
  read_array l σ = (Ok a, σ') → arrays σ !! l = Some a ∧ σ' = σ.
Proof.
  unfold read_array. destruct (arrays σ !! l); intros H; inversion H; auto.
Qed.

Lemma read_header_inv l h σ σ' :
  read_header l σ = (Ok h, σ') → headers σ !! l = Some h ∧ σ' = σ.
Proof.
  unfold read_header. destruct (headers σ !! l); intros H; inversion H; auto.
Qed.

Lemma lift_inv {A} (r : result A) a σ σ' :
  lift r σ = (Ok a, σ') → r = Ok a ∧ σ' = σ.
Proof. unfold lift. intros H; inversion H; auto. Qed.

(** ** The numpy operations on concrete inputs *)

Example getitem0_cube :
  getitem0 Reference.cube = Ok Reference.image.
Proof. reflexivity. Qed.

Example getitem0_scalar :
  getitem0 (mk_ndarray [] (Float64 [1%float])) = Err IndexError.
Proof. reflexivity. Qed.

(** NaN form one class that sorts last; the two zeros are one value. *)
Example np_unique_floats :
  np_unique (Float64 [nan; 1; nan; -0; 7; 0; 1; 0]%float)
  = [(FloatV (-0)%float, 3); (FloatV 1%float, 2); (FloatV 7%float, 1);
     (FloatV nan, 2)].
Proof. vm_refl. Qed.

Example np_unique_integers :
  np_unique (Int64 [3; -1; 3; 0; 3]%Z) = [(IntV (-1), 1); (IntV 0, 1); (IntV 3, 3)].
Proof. reflexivity. Qed.

Example np_divide_pairwise :
  np_divide [3600; 1800]%float [1800; 1800]%float = Ok [2; 1]%float.
Proof. vm_refl. Qed.

Example np_divide_broadcast :
  np_divide [3600]%float [1800; 900]%float = Ok [2; 4]%float.
Proof. vm_refl. Qed.

Example np_divide_mismatch :
  np_divide [1; 2; 3]%float [1; 2]%float = Err ValueError.
Proof. reflexivity. Qed.

Section Counting.
Context {A : Type} (same before : A → A → bool).

Lemma insert_count_total (x : A) (l : list (A * nat)) :
  sum_list (insert_count same before x l).*2 = S (sum_list l.*2).
Proof.
  induction l as [|[v c] l IH]; [reflexivity|]. cbn [insert_count].
  destruct (same x v); [reflexivity|].
  destruct (before x v); [reflexivity|].
  rewrite !fmap_cons. cbn [sum_list snd]. rewrite IH. lia.
Qed.

(** The counts of [unique_counts] add up to the number of elements. *)
Lemma unique_counts_total (l : list A) :
  sum_list (unique_counts same before l).*2 = length l.
Proof.
  unfold unique_counts.
  assert (∀ acc, sum_list (foldl (λ acc x, insert_count same before x acc) acc l).*2
                 = length l + sum_list acc.*2) as Hfold.
  { induction l as [|x l IH]; intros acc; [reflexivity|].
    cbn [foldl length]. rewrite IH, insert_count_total. lia. }
  rewrite Hfold. simpl. lia.
Qed.
End Counting.

(** ** Photometry with an unknown mode *)

Section Photometry_mode.
Context `{L : Library}.

(** C10.  With a mode other than 'pixel' and 'sky', [photometry] stops
    with an unbound-local-variable error on [positions] when it builds the
    aperture: no library routine has run, the store is as before, and no
    magnitude comes back. *)
Theorem photometry_unknown_mode (self : Handle) coord r mode zeropoint plot σ :
  mode ≠ "pixel" → mode ≠ "sky" →
  photometry self coord r mode zeropoint plot σ
  = (Err (UnboundLocalError "positions"), σ).
Proof.
  intros Hpixel Hsky. unfold photometry.
  apply String.eqb_neq in Hpixel, Hsky. rewrite Hpixel, Hsky.
  reflexivity.
Qed.
End Photometry_mode.

Lemma photometry_unknown_mode_witness :
  photometry Reference.image_handle [1; 2]%float 1%float "world" 0%float false
    Reference.loaded
  = (Err (UnboundLocalError "positions"), Reference.loaded).
Proof.
  apply photometry_unknown_mode; discriminate.
Defined.

(** ** Magnitude error *)

Section Magnitude_error.
Context `{L : Library}.

End Magnitude_error.


(** ** Cutouts *)

Section Cutouts.
Context `{L : Library}.

Lemma cutout_unfold (self : Handle) coord box :
  cutout self coord box
  = (rows ← lift (wcs_world2pix (wcs self) [coord] 0);
     xy ← first_row_xy rows;
     box_pix ← lift (np_divide box (pixel_scale self));
     crop_and_wrap self xy box_pix).
Proof. reflexivity. Qed.

Lemma cutout_pixel_unfold (self : Handle) coord box :
  cutout_pixel self coord box
  = (rows ← lift (wcs_world2pix (wcs self) [coord] 0);
     xy ← first_row_xy rows;
     crop_and_wrap self xy box).
Proof. reflexivity. Qed.

Lemma np_divide_same_length (a b : list float) :
  length a = length b → np_divide a b = Ok (zip_with PrimFloat.div a b).
Proof.
  intros Hlen. unfold np_divide.
  rewrite (proj2 (Nat.eqb_eq _ _) Hlen). reflexivity.
Qed.

(** What the shared tail does, in terms of the answer of [Cutout2D] in
    partial-overlap mode. *)
Lemma crop_and_wrap_run (self : Handle) xy box σ a h :
  arrays σ !! hdu self = Some a →
  headers σ !! hdr self = Some h →
  crop_and_wrap self xy box σ
  = match Cutout2D a xy box (wcs self) Partial with
    | Ok (data_crop, wcs_crop) =>
        (Ok (child_of self σ wcs_crop), store_after_crop self σ h data_crop wcs_crop)
    | Err e => (Err e, σ)
    | OutOfFuel => (OutOfFuel, σ)
    end.
Proof.
  intros Ha Hh. unfold crop_and_wrap.
  erewrite bind_ok by (apply read_array_ok, Ha).
  rewrite bind_run, lift_run.
  destruct (Cutout2D a xy box (wcs self) Partial) as [[data_crop wcs_crop]|e|];
    [|reflexivity..].
  erewrite bind_ok by (apply read_header_ok, Hh).
  reflexivity.
Qed.

Lemma crop_and_wrap_inv (self : Handle) xy box σ child σ' :
  crop_and_wrap self xy box σ = (Ok child, σ') →
  ∃ a h data_crop,
    arrays σ !! hdu self = Some a ∧
    headers σ !! hdr self = Some h ∧
    Cutout2D a xy box (wcs self) Partial = Ok (data_crop, wcs child) ∧
    child = child_of self σ (wcs child) ∧
    σ' = store_after_crop self σ h data_crop (wcs child).
Proof.
  unfold crop_and_wrap. intros Hrun.
  apply bind_ok_inv in Hrun as (a & σ1 & Hread & Hrun).
  apply read_array_inv in Hread as [Ha ->].
  apply bind_ok_inv in Hrun as ([data_crop wcs_crop] & σ2 & Hcut & Hrun).
  apply lift_inv in Hcut as [Hcut ->].
  apply bind_ok_inv in Hrun as (h & σ3 & Hread & Hrun).
  apply read_header_inv in Hread as [Hh ->].
  inversion Hrun; subst; clear Hrun.
  exists a, h, data_crop. simpl. auto.
Qed.

(** C4.  [cutout] takes the first row of the world-to-pixel transform of the
    coordinate as the centre, divides the box by the stored pixel scale
    axis by axis, and asks [Cutout2D] for the crop in partial-overlap mode:
    its outcome is the outcome of that call, so a box the library accepts
    under partial overlap gives a handle on the cropped array, and only a
    refusal of the library in that mode makes [cutout] fail. *)
Theorem cutout_centred_partial (self : Handle) coord box σ x y rest a h :
  wcs_world2pix (wcs self) [coord] 0 = Ok ([x; y] :: rest) →
  length box = length (pixel_scale self) →
  arrays σ !! hdu self = Some a →
  headers σ !! hdr self = Some h →
  cutout self coord box σ
  = match Cutout2D a (x, y) (zip_with PrimFloat.div box (pixel_scale self))
            (wcs self) Partial with
    | Ok (data_crop, wcs_crop) =>
        (Ok (child_of self σ wcs_crop), store_after_crop self σ h data_crop wcs_crop)
    | Err e => (Err e, σ)
    | OutOfFuel => (OutOfFuel, σ)
    end
  ∧ ∀ data_crop wcs_crop,
      Cutout2D a (x, y) (zip_with PrimFloat.div box (pixel_scale self))
        (wcs self) Partial = Ok (data_crop, wcs_crop) →
      arrays (store_after_crop self σ h data_crop wcs_crop)
        !! hdu (child_of self σ wcs_crop) = Some data_crop
      ∧ wcs (child_of self σ wcs_crop) = wcs_crop.
Proof.
  intros Hpix Hlen Ha Hh. split.
  - rewrite cutout_unfold.
    erewrite bind_ok by (rewrite lift_run, Hpix; reflexivity).
    erewrite bind_ok by reflexivity.
    erewrite bind_ok by (rewrite lift_run, np_divide_same_length by exact Hlen; reflexivity).
    apply crop_and_wrap_run; assumption.
  - intros data_crop wcs_crop _. split; [|reflexivity].
    simpl. apply lookup_insert_eq.
Qed.

(** C2.  The handle a cutout call returns wraps the cropped array and the
    new transform, and its header is the parent's header object: the same
    location, whose content is the parent's header updated with the
    serialization of the new transform.  Nothing is copied. *)
Theorem cutout_shares_header (self : Handle) coord box σ child σ' :
  cutout self coord box σ = (Ok child, σ') ∨
  cutout_pixel self coord box σ = (Ok child, σ') →
  ∃ a h xy box_pix data_crop,
    arrays σ !! hdu self = Some a ∧
    headers σ !! hdr self = Some h ∧
    Cutout2D a xy box_pix (wcs self) Partial = Ok (data_crop, wcs child) ∧
    arrays σ' !! hdu child = Some data_crop ∧
    hdr child = hdr self ∧
    headers σ' !! hdr self = Some (header_update h (to_header (wcs child))) ∧
    (∀ l, l ≠ hdr self → headers σ' !! l = headers σ !! l).
Proof.
  intros Hrun.
  assert (∃ xy box_pix, crop_and_wrap self xy box_pix σ = (Ok child, σ'))
    as (xy & box_pix & Htail).
  { destruct Hrun as [Hrun | Hrun].
    - rewrite cutout_unfold in Hrun.
      apply bind_ok_inv in Hrun as (rows & σ1 & Hrows & Hrun).
      apply lift_inv in Hrows as [_ ->].
      apply bind_ok_inv in Hrun as (xy & σ2 & Hxy & Hrun).
      assert (σ2 = σ) as ->.
      { destruct rows as [|[|x0 [|y0 [|]]] ?]; inversion Hxy; reflexivity. }
      apply bind_ok_inv in Hrun as (box_pix & σ3 & Hbox & Hrun).
      apply lift_inv in Hbox as [_ ->]. eauto.
    - rewrite cutout_pixel_unfold in Hrun.
      apply bind_ok_inv in Hrun as (rows & σ1 & Hrows & Hrun).
      apply lift_inv in Hrows as [_ ->].
      apply bind_ok_inv in Hrun as (xy & σ2 & Hxy & Hrun).
      assert (σ2 = σ) as ->.
      { destruct rows as [|[|x0 [|y0 [|]]] ?]; inversion Hxy; reflexivity. }
      eauto. }
  apply crop_and_wrap_inv in Htail as (a & h & data_crop & Ha & Hh & Hcut & Hchild & ->).
  exists a, h, xy, box_pix, data_crop.
  rewrite Hchild. simpl.
  repeat split; try assumption.
  - apply lookup_insert_eq.
  - apply lookup_insert_eq.
  - intros l Hl. apply lookup_insert_ne. congruence.
Qed.

(** C9.  [cutout_pixel] sends its coordinate through the same world-to-pixel
    transform as [cutout], so it reads the coordinate as a sky position; the
    two differ only in the scaling of the box: [cutout(coord, box)] is
    [cutout_pixel(coord, box / pixel_scale)], with the same outcome and the
    same store. *)
Theorem cutout_is_cutout_pixel_scaled (self : Handle) coord box box_pix σ :
  np_divide box (pixel_scale self) = Ok box_pix →
  cutout self coord box σ = cutout_pixel self coord box_pix σ
  ∧ (∀ e, wcs_world2pix (wcs self) [coord] 0 = Err e →
          cutout_pixel self coord box_pix σ = (Err e, σ))
  ∧ (∀ x y rest a h,
       wcs_world2pix (wcs self) [coord] 0 = Ok ([x; y] :: rest) →
       arrays σ !! hdu self = Some a →
       headers σ !! hdr self = Some h →
       cutout_pixel self coord box_pix σ
       = match Cutout2D a (x, y) box_pix (wcs self) Partial with
         | Ok (data_crop, wcs_crop) =>
             (Ok (child_of self σ wcs_crop),
              store_after_crop self σ h data_crop wcs_crop)
         | Err e => (Err e, σ)
         | OutOfFuel => (OutOfFuel, σ)
         end).
Proof.
  intros Hdiv. split; [|split].
  - rewrite cutout_unfold, cutout_pixel_unfold.
    rewrite !(bind_run (lift _)), !lift_run.
    destruct (wcs_world2pix (wcs self) [coord] 0) as [rows|e|]; [|reflexivity..].
    rewrite !(bind_run (first_row_xy rows)).
    destruct (first_row_xy rows σ) as [[xy|e|] σ1]; [|reflexivity..].
    erewrite bind_ok by (rewrite lift_run, Hdiv; reflexivity).
    reflexivity.
  - intros e Hpix. rewrite cutout_pixel_unfold.
    erewrite bind_err by (rewrite lift_run, Hpix; reflexivity).
    reflexivity.
  - intros x y rest a h Hpix Ha Hh. rewrite cutout_pixel_unfold.
    erewrite bind_ok by (rewrite lift_run, Hpix; reflexivity).
    erewrite bind_ok by reflexivity.
    apply crop_and_wrap_run; assumption.
Qed.
End Cutouts.

Lemma cutout_centred_partial_witness :
  cutout Reference.image_handle [0; 0]%float [3600; 3600]%float Reference.loaded
  = (Ok Reference.corner_child, Reference.after_corner_cutout)
  ∧ arrays Reference.after_corner_cutout !! hdu Reference.corner_child
    = Some Reference.corner_crop
  ∧ wcs Reference.corner_child = Reference.corner_wcs.
Proof.
  destruct (cutout_centred_partial Reference.image_handle [0; 0]%float
              [3600; 3600]%float Reference.loaded 0%float 0%float []
              Reference.image Reference.image_header)
    as [Hrun Hchild]; [vm_refl..|].
  split.
  - rewrite Hrun. vm_refl.
  - apply (Hchild Reference.corner_crop Reference.corner_wcs). vm_refl.
Defined.

Lemma cutout_shares_header_witness :
  ∃ a h xy box_pix data_crop,
    arrays Reference.loaded !! hdu Reference.image_handle = Some a ∧
    headers Reference.loaded !! hdr Reference.image_handle = Some h ∧
    Cutout2D a xy box_pix (wcs Reference.image_handle) Partial
    = Ok (data_crop, wcs Reference.corner_child) ∧
    arrays Reference.after_corner_cutout !! hdu Reference.corner_child
    = Some data_crop ∧
    hdr Reference.corner_child = hdr Reference.image_handle ∧
    headers Reference.after_corner_cutout !! hdr Reference.image_handle
    = Some (header_update h (to_header (wcs Reference.corner_child))) ∧
    (∀ l, l ≠ hdr Reference.image_handle →
          headers Reference.after_corner_cutout !! l = headers Reference.loaded !! l).
Proof.
  apply (cutout_shares_header Reference.image_handle [0; 0]%float
           [3600; 3600]%float Reference.loaded).
  left. vm_refl.
Defined.

Lemma cutout_is_cutout_pixel_scaled_witness :
  cutout Reference.image_handle [0; 0]%float [3600; 3600]%float Reference.loaded
  = cutout_pixel Reference.image_handle [0; 0]%float [2; 2]%float Reference.loaded.
Proof.
  apply (cutout_is_cutout_pixel_scaled Reference.image_handle [0; 0]%float
           [3600; 3600]%float [2; 2]%float Reference.loaded).
  vm_refl.
Defined.

(** ** Construction from a file *)

Section Construction.
Context `{L : Library}.

Lemma init_file_unfold fuel url ext verbose σ :
  init_file fuel url ext verbose σ
  = ('(hdu1, hdr0, w1) ← load_and_reduce fuel url ext verbose;
     (if (naxis w1 =? 2)%nat && verbose
      then print (PrintDropSuccess (naxis w1) (ctype w1)) else mret tt);;
     mret (mk_Handle url ext hdu1 hdr0 w1 (scale_arcsec w1))) σ.
Proof.
  unfold init_file, load_and_reduce. rewrite !bind_run.
  destruct (open_fits_image url ext σ) as [[[[hdu0 hdr0] w0]|e|] σ0]; [|reflexivity..].
  rewrite !bind_run.
  destruct ((if negb (naxis w0 =? 2)%nat && verbose
             then print (PrintNot2D (naxis w0) (ctype w0)) else mret tt) σ0)
    as [[[]|e|] σ0']; [|reflexivity..].
  rewrite !bind_run.
  destruct (drop_axes fuel hdu0 hdr0 w0 σ0') as [[[hdu1 w1]|e|] σ1]; reflexivity.
Qed.

(** C1.  When the file has been read and the reduction loop has ended with a
    transform of more than two axes, [__init__] in file mode still returns
    an object: the exception built in the [else] branch is never raised and
    nothing is printed, so the store is the one the loop left, and the
    object has a transform that is not two-dimensional. *)
Theorem init_file_silent_on_failed_reduction
    fuel url ext verbose σ hdu1 hdr0 w1 σ1 :
  load_and_reduce fuel url ext verbose σ = (Ok (hdu1, hdr0, w1), σ1) →
  2 < naxis w1 →
  ∃ self,
    init_file fuel url ext verbose σ = (Ok self, σ1) ∧
    self = mk_Handle url ext hdu1 hdr0 w1 (scale_arcsec w1) ∧
    naxis (wcs self) ≠ 2.
Proof.
  intros Hloop Haxes. eexists. split; [|split; [reflexivity|]].
  - rewrite init_file_unfold.
    erewrite bind_ok by exact Hloop. cbv beta iota.
    assert ((naxis w1 =? 2)%nat = false) as ->.
    { apply Nat.eqb_neq. lia. }
    reflexivity.
  - simpl. lia.
Qed.
End Construction.

Lemma init_file_silent_on_failed_reduction_witness :
  ∃ self,
    init_file 3 "stack.fits" 0 true Reference.disk
    = (Ok self, Reference.after_stack) ∧
    self = Reference.stack_handle ∧
    naxis (wcs self) ≠ 2.
Proof.
  apply (init_file_silent_on_failed_reduction (L := Reference.library)
           3 "stack.fits" 0 true Reference.disk 0 0 Reference.stack_wcs
           Reference.after_stack).
  - vm_refl.
  - vm_compute. lia.
Defined.

(** ** The reduction loop *)

Section Reduction.
Context `{L : Library}.
Hypothesis Hdrop : dropaxis_law.

(** The loop on a transform with one extent per axis: it returns, after
    [k] drops, where the first [k] extents were 1. *)
Lemma drop_axes_run fuel : ∀ hdu hdr w a h σ,
  2 ≤ naxis w →
  array_shape w = Some (shape a) →
  length (shape a) = naxis w →
  arrays σ !! hdu = Some a →
  headers σ !! hdr = Some h →
  naxis w ≤ S fuel →
  ∃ hdu1 w1 σ1 a1 h1 k,
    drop_axes fuel hdu hdr w σ = (Ok (hdu1, w1), σ1) ∧
    arrays σ1 !! hdu1 = Some a1 ∧
    headers σ1 !! hdr = Some h1 ∧
    reduced k w h w1 h1 ∧
    take k (shape a) = replicate k 1 ∧
    shape a1 = drop k (shape a) ∧
    array_shape w1 = Some (shape a1) ∧
    naxis w1 + k = naxis w ∧
    2 ≤ naxis w1 ∧
    (naxis w1 = 2 ∨ ∃ n rest, shape a1 = n :: rest ∧ n ≠ 1) ∧
    files σ1 = files σ ∧ out σ1 = out σ.
Proof.
  induction fuel as [|fuel IH]; intros hdu hdr w a h σ Hge Hshape Hlen Ha Hh Hfuel.
  { lia. }
  simpl. destruct (Nat.eqb_spec (naxis w) 2) as [Htwo | Hmore]; simpl.
  { exists hdu, w, σ, a, h, 0. rewrite drop_0. simpl.
    repeat split; auto using reduced_O; lia. }
  destruct (shape a) as [|s0 rest] eqn:Hsh; [simpl in Hlen; lia|].
  unfold leading_extent. rewrite Hshape. rewrite bind_run. simpl.
  destruct (Nat.eqb_spec s0 1) as [-> | Hs0].
  2:{ exists hdu, w, σ, a, h, 0. rewrite Hsh, drop_0. simpl.
      repeat split; auto using reduced_O; try lia. right; eauto. }
  simpl in Hlen.
  destruct (Hdrop w (naxis w - 1) 1 rest) as (w' & Hw' & Hn' & Hs');
    [lia | lia | exact Hshape | lia |].
  erewrite bind_ok by (apply read_array_ok, Ha).
  erewrite bind_ok by (rewrite lift_run; unfold getitem0; rewrite Hsh; reflexivity).
  erewrite bind_ok by reflexivity.
  erewrite bind_ok by (rewrite lift_run, Hw'; reflexivity).
  erewrite bind_ok by (apply read_header_ok; simpl; exact Hh).
  erewrite bind_ok by reflexivity.
  cbn [arrays headers files out].
  set (a' := mk_ndarray rest (pixels_take (extent_product rest) (data a))).
  set (hdu' := fresh (dom (arrays σ))).
  set (h' := header_update h (to_header w')).
  set (σ' := mk_store (<[hdu' := a']> (arrays σ)) (<[hdr := h']> (headers σ))
                      (files σ) (out σ)).
  destruct (IH hdu' hdr w' a' h' σ')
    as (hdu1 & w1 & σ1 & a1 & h1 & k & Hrun & Ha1 & Hh1 & Hred & Hones & Hsh1
        & Hws1 & Hnk & Hge1 & Hstop & Hfiles & Hout).
  - lia.
  - exact Hs'.
  - simpl. lia.
  - simpl. apply lookup_insert_eq.
  - simpl. apply lookup_insert_eq.
  - lia.
  - exists hdu1, w1, σ1, a1, h1, (S k). simpl in *.
    rewrite Hrun. repeat split; auto.
    + econstructor; eauto.
    + f_equal. exact Hones.
    + lia.
Qed.
Lemma open_fits_image_run url ext σ hdulist a0 h0 w0 :
  files σ !! url = Some hdulist →
  hdulist !! ext = Some (a0, h0) →
  WCS_of_header h0 = Ok w0 →
  open_fits_image url ext σ
  = (Ok (fresh (dom (arrays σ)), fresh (dom (headers σ)), w0),
     mk_store (<[fresh (dom (arrays σ)) := a0]> (arrays σ))
              (<[fresh (dom (headers σ)) := h0]> (headers σ))
              (files σ) (out σ)).
Proof.
  intros Hfile Hext Hwcs. unfold open_fits_image.
  erewrite bind_ok by (unfold fits_open; rewrite Hfile, Hext; reflexivity).
  cbv beta iota.
  erewrite bind_ok by reflexivity.
  erewrite bind_ok by reflexivity.
  erewrite bind_ok by (rewrite lift_run, Hwcs; reflexivity).
  reflexivity.
Qed.

(** C5.  For a FITS input whose transform has more than two axes, one per
    extent of the array, construction returns after [k] rounds of the loop:
    each round found the leading extent equal to 1, dropped the
    highest-index axis of the transform and updated the header from the
    reduced transform; at the end the transform has two axes or the leading
    extent is not 1.  For an array of shape [1, H, W] the result has shape
    (H, W) and a transform of two axes. *)
Theorem init_file_drops_singleton_axes fuel url ext verbose σ hdulist a0 h0 w0 :
  files σ !! url = Some hdulist →
  hdulist !! ext = Some (a0, h0) →
  WCS_of_header h0 = Ok w0 →
  2 < naxis w0 →
  array_shape w0 = Some (shape a0) →
  length (shape a0) = naxis w0 →
  naxis w0 ≤ S fuel →
  ∃ self σ1 a1 h1 k,
    init_file fuel url ext verbose σ = (Ok self, σ1) ∧
    arrays σ1 !! hdu self = Some a1 ∧
    headers σ1 !! hdr self = Some h1 ∧
    reduced k w0 h0 (wcs self) h1 ∧
    take k (shape a0) = replicate k 1 ∧
    shape a1 = drop k (shape a0) ∧
    naxis (wcs self) + k = naxis w0 ∧
    (naxis (wcs self) = 2 ∨ ∃ n rest, shape a1 = n :: rest ∧ n ≠ 1) ∧
    (∀ height width,
       shape a0 = [1; height; width] →
       shape a1 = [height; width] ∧ naxis (wcs self) = 2).
Proof.
  intros Hfile Hext Hwcs Haxes Hshape Hlen Hfuel.
  set (hdu0 := fresh (dom (arrays σ))).
  set (hdr0 := fresh (dom (headers σ))).
  set (σ0 := mk_store (<[hdu0 := a0]> (arrays σ)) (<[hdr0 := h0]> (headers σ))
                      (files σ)
                      (if verbose then out σ ++ [PrintNot2D (naxis w0) (ctype w0)]
                       else out σ)).
  destruct (drop_axes_run fuel hdu0 hdr0 w0 a0 h0 σ0)
    as (hdu1 & w1 & σ1 & a1 & h1 & k & Hrun & Ha1 & Hh1 & Hred & Hones & Hsh1
        & Hws1 & Hnk & Hge1 & Hstop & Hfiles & Hout);
    [lia | exact Hshape | exact Hlen | apply lookup_insert_eq
    | apply lookup_insert_eq | exact Hfuel |].
  assert ((naxis w0 =? 2)%nat = false) as Hne by (apply Nat.eqb_neq; lia).
  set (σ2 := if (naxis w1 =? 2)%nat && verbose
             then mk_store (arrays σ1) (headers σ1) (files σ1)
                    (out σ1 ++ [PrintDropSuccess (naxis w1) (ctype w1)])
             else σ1).
  exists (mk_Handle url ext hdu1 hdr0 w1 (scale_arcsec w1)), σ2, a1, h1, k.
  assert (arrays σ2 = arrays σ1 ∧ headers σ2 = headers σ1) as [Harr Hhdr].
  { unfold σ2. destruct ((naxis w1 =? 2)%nat && verbose); auto. }
  split; [|simpl; rewrite Harr, Hhdr; do 7 (split; [solve [auto]|])].
  - unfold init_file.
    erewrite bind_ok by (eapply open_fits_image_run; eassumption).
    cbv beta iota. rewrite Hne. fold hdu0 hdr0.
    erewrite bind_ok with (σ' := σ0) by (unfold σ0; destruct verbose; reflexivity).
    erewrite bind_ok by exact Hrun.
    cbv beta iota. unfold σ2.
    destruct ((naxis w1 =? 2)%nat && verbose); reflexivity.
  - intros height width Hcube. rewrite Hcube in *. simpl in Hlen.
    destruct Hstop as [Htwo | (n & rest & Hsh & Hn)].
    + assert (k = 1) as -> by lia. rewrite Hsh1. auto.
    + destruct k as [|[|k]]; [| split; [rewrite Hsh1; reflexivity | lia] | lia].
      rewrite Hsh1 in Hsh. simpl in Hsh. congruence.
Qed.
End Reduction.

(** The reference instance drops axes as the law says. *)
Lemma reference_dropaxis_law : dropaxis_law (L := Reference.library).
Proof.
  intros w m s0 rest Hn Hm Hshape Hlen. simpl in *.
  unfold Reference.ref_array_shape in Hshape.
  destruct (Reference.rw_pixel_shape w) as [ps|] eqn:Hps; [|discriminate].
  simpl in Hshape. injection Hshape as Hrev.
  assert (ps = reverse rest ++ [s0]) as ->.
  { rewrite <- (reverse_involutive ps), Hrev. apply reverse_cons. }
  unfold Reference.ref_dropaxis. rewrite Hn.
  rewrite (proj2 (Nat.ltb_lt m (S m))) by lia.
  eexists. split; [reflexivity|]. split; simpl; [lia|].
  unfold Reference.ref_array_shape. simpl. rewrite Hps. simpl.
  rewrite <- Hlen, <- (length_reverse rest), delete_middle, app_nil_r.
  rewrite reverse_involutive. reflexivity.
Qed.

Lemma init_file_drops_singleton_axes_witness :
  ∃ (self : Handle (L := Reference.library)) σ1 a1 h1 k,
    init_file 2 "cube.fits" 0 true Reference.disk = (Ok self, σ1) ∧
    arrays σ1 !! hdu self = Some a1 ∧
    headers σ1 !! hdr self = Some h1 ∧
    reduced (L := Reference.library) k Reference.cube_wcs Reference.cube_header
      (wcs self) h1 ∧
    take k (shape Reference.cube) = replicate k 1 ∧
    shape a1 = drop k (shape Reference.cube) ∧
    naxis (wcs self) + k = Reference.rw_naxis Reference.cube_wcs ∧
    (naxis (wcs self) = 2 ∨ ∃ n rest, shape a1 = n :: rest ∧ n ≠ 1) ∧
    (∀ height width,
       shape Reference.cube = [1; height; width] →
       shape a1 = [height; width] ∧ naxis (wcs self) = 2).
Proof.
  apply (init_file_drops_singleton_axes reference_dropaxis_law 2 "cube.fits" 0
           true Reference.disk [(Reference.cube, Reference.cube_header)]).
  - vm_refl.
  - vm_refl.
  - vm_refl.
  - vm_compute. lia.
  - vm_refl.
  - vm_refl.
  - vm_compute. lia.
Defined.

(** ** Masking blank regions *)

Section Masking.
Context `{L : Library}.

Lemma masked_cons v flagged d :
  masked flagged ((λ x, if (x =? v)%float then nan else x) <$> d)
  = masked (v :: flagged) d.
Proof.
  unfold masked. rewrite <- list_fmap_compose.
  apply list_fmap_ext. intros i x _. simpl.
  destruct (x =? v)%float; simpl; [|reflexivity].
  destruct (existsb _ flagged); reflexivity.
Qed.

Lemma setitem_nan_equal d v :
  setitem_nan (Float64 d) (np_equal (Float64 d) (FloatV v))
  = Ok (Float64 ((λ x, if (x =? v)%float then nan else x) <$> d)).
Proof.
  unfold setitem_nan, np_equal. do 2 f_equal.
  rewrite zip_with_fmap_r, zip_with_diag. reflexivity.
Qed.

Lemma mask_value_run (self : Handle) s d v c σ :
  arrays σ !! hdu self = Some (mk_ndarray s (Float64 d)) →
  mask_value self (FloatV v, c) σ
  = (Ok tt,
     mk_store (<[hdu self := mk_ndarray s
                   (Float64 ((λ x, if (x =? v)%float then nan else x) <$> d))]>
                 (arrays σ))
              (headers σ) (files σ) (out σ ++ [PrintMode c (FloatV v)])).
Proof.
  intros Ha. unfold mask_value.
  erewrite bind_ok by reflexivity.
  erewrite bind_ok by (apply read_array_ok; simpl; exact Ha).
  cbn [data shape fst snd].
  erewrite bind_ok by (rewrite lift_run, setitem_nan_equal; reflexivity).
  reflexivity.
Qed.

(** The [for] loop over the flagged values of a float array. *)
Lemma mask_values_run (self : Handle) s : ∀ flagged d σ,
  arrays σ !! hdu self = Some (mk_ndarray s (Float64 d)) →
  mask_values self (prod_map FloatV id <$> flagged) σ
  = (Ok tt,
     mk_store
       (match flagged with
        | [] => arrays σ
        | _ :: _ => <[hdu self := mk_ndarray s (Float64 (masked (flagged.*1) d))]>
                      (arrays σ)
        end)
       (headers σ) (files σ) (out σ ++ (mode_event <$> flagged))).
Proof.
  induction flagged as [|[v c] flagged IH]; intros d σ Ha.
  - simpl. rewrite app_nil_r. destruct σ; reflexivity.
  - rewrite fmap_cons. cbn [mask_values prod_map id].
    erewrite bind_ok by (apply mask_value_run; exact Ha).
    rewrite IH with (d := (λ x, if (x =? v)%float then nan else x) <$> d)
      by (simpl; apply lookup_insert_eq).
    simpl. f_equal. f_equal.
    + rewrite masked_cons. destruct flagged as [|vc flagged].
      * unfold masked. simpl. f_equal. f_equal. f_equal.
        apply list_fmap_ext. intros i x _. simpl.
        destruct (x =? v)%float; reflexivity.
      * apply insert_insert_eq.
    + rewrite <- app_assoc. reflexivity.
Qed.

Lemma filter_prod_map_snd {A B} (f : A → B) (P : nat → bool) (l : list (A * nat)) :
  filter (λ vc, P vc.2 = true) (prod_map f id <$> l)
  = prod_map f id <$> filter (λ vc, P vc.2 = true) l.
Proof.
  induction l as [|[v c] l IH]; [reflexivity|].
  rewrite fmap_cons, !filter_cons. simpl.
  destruct (decide (P c = true)); rewrite IH; reflexivity.
Qed.

Lemma snd_prod_map {A B} (f : A → B) (l : list (A * nat)) :
  (prod_map f id <$> l).*2 = l.*2.
Proof.
  rewrite <- list_fmap_compose. apply list_fmap_ext. intros i [v c] _. reflexivity.
Qed.

(** C3, for a floating-point array.  [mask_blank] counts the distinct pixel
    values, flags exactly those whose count is strictly above
    mean(counts) + 5 * std(counts) + threshold, and returns the handle it
    was called on.  The array object of the handle then holds NaN wherever
    a pixel was equal to a flagged value and the old pixel everywhere else;
    when no value is flagged the array store is untouched.  Headers and
    files are never touched. *)
Theorem mask_blank_float (self : Handle) threshold σ s d :
  arrays σ !! hdu self = Some (mk_ndarray s (Float64 d)) →
  let counted := unique_counts float_same float_before d in
  let critical := critical_counts (counted.*2) threshold in
  let flagged := filter (λ vc, exceeds critical vc.2 = true) counted in
  mask_blank self threshold σ
  = (Ok self,
     mk_store
       (match flagged with
        | [] => arrays σ
        | _ :: _ => <[hdu self := mk_ndarray s (Float64 (masked (flagged.*1) d))]>
                      (arrays σ)
        end)
       (headers σ) (files σ)
       (out σ ++ PrintCritical critical :: (mode_event <$> flagged)))
  ∧ (∀ i x, d !! i = Some x →
       masked (flagged.*1) d !! i
       = Some (if existsb (λ v, x =? v)%float (flagged.*1) then nan else x)).
Proof.
  intros Ha counted critical flagged. split.
  - unfold mask_blank.
    erewrite bind_ok by (apply read_array_ok, Ha).
    cbn [data np_unique]. rewrite snd_prod_map.
    fold counted. fold critical.
    erewrite bind_ok by reflexivity.
    rewrite filter_prod_map_snd. fold flagged.
    erewrite bind_ok by (apply mask_values_run; simpl; exact Ha).
    simpl. rewrite <- app_assoc. reflexivity.
  - intros i x Hx. unfold masked. rewrite list_lookup_fmap, Hx. reflexivity.
Qed.
End Masking.

Lemma mask_blank_float_witness :
  mask_blank Reference.image_handle (-20) Reference.loaded
  = (Ok Reference.image_handle, Reference.after_mask)
  ∧ masked [0%float] Reference.cube_data !! 5 = Some 5%float
  ∧ masked [0%float] Reference.cube_data !! 0 = Some nan.
Proof.
  destruct (mask_blank_float Reference.image_handle (-20) Reference.loaded
              [3; 4] Reference.cube_data) as [Hrun Hpixel]; [vm_refl|].
  split; [rewrite Hrun; vm_refl|].
  split.
  - exact (Hpixel 5 5%float eq_refl).
  - exact (Hpixel 0 0%float eq_refl).
Defined.

(** C3 as stated, on an integer array: the value 0 occurs 3 times out of 4,
    the critical count is 2 + 5 * 1 - 5 = 2, so 0 is flagged, and assigning
    NaN into the integer buffer raises: no handle comes back and no pixel is
    replaced. *)
Lemma mask_blank_integer_counterexample :
  arrays Reference.int_store !! hdu Reference.int_handle = Some Reference.int_image
  ∧ mask_blank Reference.int_handle (-5) Reference.int_store
    = (Err ValueError, Reference.int_store_after).
Proof. split; vm_refl. Qed.

(** ** Aperture photometry *)

Lemma nan_add (z : float) : (nan + z)%float = nan.
Proof. apply Prim2SF_inj. rewrite add_spec. reflexivity. Qed.

Lemma infinity_add (z : float) :
  is_nan z = false → (z =? neg_infinity)%float = false →
  (infinity + z)%float = infinity.
Proof.
  unfold is_nan. rewrite !FloatAxioms.eqb_spec. intros Hnan Hneg.
  apply Prim2SF_inj. rewrite add_spec.
  change (Prim2SF neg_infinity) with (S754_infinity true) in Hneg.
  change (Prim2SF infinity) with (S754_infinity false).
  destruct (Prim2SF z) as [sz|[|]| |sz mz ez]; cbn in *;
    try reflexivity; discriminate.
Qed.

Lemma zero_not_nan_not_negative (x : float) :
  (x =? 0)%float = true → is_nan x = false ∧ (x <? 0)%float = false.
Proof.
  unfold is_nan. rewrite !FloatAxioms.eqb_spec, ltb_spec.
  change (Prim2SF 0) with (S754_zero false).
  destruct (Prim2SF x) as [[|]|[|]| |[|] mx ex]; cbn; try discriminate;
    intros _; split; reflexivity.
Qed.

Section Photometry.
Context `{L : Library}.

Lemma np_log10_negative (x : float) : (x <? 0)%float = true → np_log10 x = nan.
Proof.
  intros Hneg. unfold np_log10. rewrite Hneg. destruct (is_nan x); reflexivity.
Qed.

Lemma np_log10_zero (x : float) : (x =? 0)%float = true → np_log10 x = neg_infinity.
Proof.
  intros Hzero. destruct (zero_not_nan_not_negative x Hzero) as [Hnan Hneg].
  unfold np_log10. rewrite Hnan, Hneg, Hzero. reflexivity.
Qed.

(** The position [photometry] binds to [positions] in its two modes. *)
Lemma positions_run (self : Handle) coord mode pos σ :
  (mode = "pixel" ∧ pixel_to_world (wcs self) coord = Ok pos) ∨
  (mode = "sky" ∧ ∃ ra dec, coord !! 0 = Some ra ∧ coord !! 1 = Some dec ∧
                            SkyCoord_fk5 ra dec = Ok pos) →
  (if String.eqb mode "pixel"
   then Some <$> lift (pixel_to_world (wcs self) coord)
   else if String.eqb mode "sky"
   then ra ← getitem coord 0;
        dec ← getitem coord 1;
        Some <$> lift (SkyCoord_fk5 ra dec)
   else mret None) σ = (Ok (Some pos), σ).
Proof.
  intros [[-> Hpix] | (-> & ra & dec & Hra & Hdec & Hsky)]; simpl.
  - rewrite fmap_run, lift_run, Hpix. reflexivity.
  - erewrite bind_ok by (unfold getitem; rewrite Hra; reflexivity).
    erewrite bind_ok by (unfold getitem; rewrite Hdec; reflexivity).
    rewrite fmap_run, lift_run, Hsky. reflexivity.
Qed.

(** C6, with the zero case as the code has it.  In either mode [photometry]
    builds the circular sky aperture of radius [r] at the position, takes
    the aperture sum of the library, and returns
    -2.5 * log10(sum) + zeropoint together with the aperture.  Nothing
    guards the logarithm: a negative sum gives NaN, and a sum of zero gives
    -2.5 * (-inf) + zeropoint, which is +infinity unless the zeropoint is
    -infinity or NaN. *)
Theorem photometry_magnitude (self : Handle) coord r mode zeropoint σ pos ap a counts :
  (mode = "pixel" ∧ pixel_to_world (wcs self) coord = Ok pos) ∨
  (mode = "sky" ∧ ∃ ra dec, coord !! 0 = Some ra ∧ coord !! 1 = Some dec ∧
                            SkyCoord_fk5 ra dec = Ok pos) →
  SkyCircularAperture pos r = Ok ap →
  arrays σ !! hdu self = Some a →
  aperture_sum a ap (wcs self) = Ok counts →
  photometry self coord r mode zeropoint false σ
  = (Ok (mk_Photometry (-2.5 * np_log10 counts + zeropoint)%float ap None), σ)
  ∧ (∀ fig fig',
       render_preview a (wcs self) "gray_r" 1 = Ok fig →
       overlay_aperture fig ap (wcs self)
         (-2.5 * np_log10 counts + zeropoint)%float r = Ok fig' →
       photometry self coord r mode zeropoint true σ
       = (Ok (mk_Photometry (-2.5 * np_log10 counts + zeropoint)%float ap
                (Some fig')), σ))
  ∧ ((counts <? 0)%float = true →
       (-2.5 * np_log10 counts + zeropoint)%float = nan)
  ∧ ((counts =? 0)%float = true →
       (-2.5 * np_log10 counts + zeropoint)%float = (infinity + zeropoint)%float
       ∧ (is_nan zeropoint = false → (zeropoint =? neg_infinity)%float = false →
          (-2.5 * np_log10 counts + zeropoint)%float = infinity)).
Proof.
  intros Hpos Hap Ha Hsum.
  assert (∀ plot, photometry self coord r mode zeropoint plot σ
          = (if negb plot
             then mret (mk_Photometry (magnitude counts zeropoint) ap None)
             else fig ← preview self "gray_r" 1;
                  fig' ← lift (overlay_aperture fig ap (wcs self)
                                 (magnitude counts zeropoint) r);
                  mret (mk_Photometry (magnitude counts zeropoint) ap (Some fig'))) σ)
    as Hrun.
  { intros plot. unfold photometry.
    erewrite bind_ok by (apply positions_run, Hpos).
    erewrite bind_ok by reflexivity.
    erewrite bind_ok by (rewrite lift_run, Hap; reflexivity).
    erewrite bind_ok by (apply read_array_ok, Ha).
    erewrite bind_ok by (rewrite lift_run, Hsum; reflexivity).
    reflexivity. }
  repeat split.
  - rewrite Hrun. reflexivity.
  - intros fig fig' Hfig Hfig'. rewrite Hrun. simpl. unfold preview.
    rewrite bind_assoc_run.
    erewrite bind_ok by (apply read_array_ok, Ha).
    erewrite bind_ok by (rewrite lift_run, Hfig; reflexivity).
    erewrite bind_ok by (rewrite lift_run; unfold magnitude; rewrite Hfig'; reflexivity).
    reflexivity.
  - intros Hneg. rewrite np_log10_negative by exact Hneg.
    change (-2.5 * nan)%float with nan. apply nan_add.
  - rewrite np_log10_zero by assumption. reflexivity.
  - intros Hnan Hninf. rewrite np_log10_zero by assumption.
    change (-2.5 * neg_infinity)%float with infinity.
    apply infinity_add; assumption.
Qed.
End Photometry.

Lemma photometry_magnitude_witness :
  photometry Reference.image_handle [0; 0]%float 900 "sky" 0 false Reference.loaded
  = (Ok (mk_Photometry (-2.5 * np_log10 (L := Reference.library) 0 + 0)%float
           Reference.blank_aperture None), Reference.loaded).
Proof.
  apply (photometry_magnitude Reference.image_handle [0; 0]%float 900 "sky" 0
           Reference.loaded (0, 0)%float Reference.blank_aperture
           Reference.image 0%float).
  - right. split; [reflexivity|]. exists 0%float, 0%float. repeat split.
  - vm_refl.
  - vm_refl.
  - vm_refl.
Defined.

(** C6 as stated, at a flux sum of zero: the aperture covers one pixel of
    value 0, and the magnitude returned is +infinity, which is not NaN. *)
Lemma photometry_zero_flux_counterexample :
  aperture_sum Reference.image Reference.blank_aperture
    (wcs Reference.image_handle) = Ok 0%float
  ∧ photometry Reference.image_handle [0; 0]%float 900 "sky" 0 false Reference.loaded
    = (Ok (mk_Photometry infinity Reference.blank_aperture None), Reference.loaded)
  ∧ is_nan infinity = false.
Proof. repeat split; vm_refl. Qed.

(** ** Export and re-construction *)

Section Round_trip.
Context `{L : Library}.

Lemma save_run (self : Handle) path σ a h :
  arrays σ !! hdu self = Some a →
  headers σ !! hdr self = Some h →
  save self path σ
  = (Ok tt, mk_store (arrays σ) (headers σ)
              (<[path := [(a, primary_header a h)] ]> (files σ)) (out σ)).
Proof.
  intros Ha Hh. unfold save.
  erewrite bind_ok by (apply read_array_ok, Ha).
  erewrite bind_ok by (apply read_header_ok, Hh).
  unfold writeto. destruct (files σ !! path); reflexivity.
Qed.

(** The loop leaves a transform alone that has two axes, or whose leading
    extent is not 1. *)
Lemma drop_axes_rest fuel hdu hdr w σ :
  naxis w = 2 ∨ (∃ n rest, array_shape w = Some (n :: rest) ∧ n ≠ 1) →
  drop_axes (S fuel) hdu hdr w σ = (Ok (hdu, w), σ).
Proof.
  intros Hrest. simpl.
  destruct (Nat.eqb_spec (naxis w) 2) as [Htwo | Hmore]; [reflexivity|].
  destruct Hrest as [Htwo | (n & rest & Hshape & Hn)]; [contradiction|].
  simpl. unfold leading_extent. rewrite Hshape.
  erewrite bind_ok by reflexivity.
  apply Nat.eqb_neq in Hn. rewrite Hn. reflexivity.
Qed.

(** C8, for a handle the loop would leave alone and whose transform is the
    one the library parses from the exported header.  [save] writes a file
    of one header-data unit at the path, whatever was there; constructing a
    handle from that file gives the same array and the same transform, so
    the same number of axes and the same pixel scale. *)
Theorem save_then_open (self : Handle) path fuel verbose σ a h :
  arrays σ !! hdu self = Some a →
  headers σ !! hdr self = Some h →
  WCS_of_header (primary_header a h) = Ok (wcs self) →
  naxis (wcs self) = 2 ∨
    (∃ n rest, array_shape (wcs self) = Some (n :: rest) ∧ n ≠ 1) →
  ∃ σ1 self' σ2,
    save self path σ = (Ok tt, σ1) ∧
    files σ1 !! path = Some [(a, primary_header a h)] ∧
    init_file (S fuel) path 0 verbose σ1 = (Ok self', σ2) ∧
    arrays σ2 !! hdu self' = Some a ∧
    wcs self' = wcs self ∧
    naxis (wcs self') = naxis (wcs self) ∧
    proj_plane_pixel_scales (wcs self') = proj_plane_pixel_scales (wcs self) ∧
    pixel_scale self' = scale_arcsec (wcs self).
Proof.
  intros Ha Hh Hparse Hrest.
  set (w := wcs self) in *.
  set (σ1 := mk_store (arrays σ) (headers σ)
               (<[path := [(a, primary_header a h)] ]> (files σ)) (out σ)).
  set (hdu0 := fresh (dom (arrays σ))).
  set (hdr0 := fresh (dom (headers σ))).
  set (σ2 := mk_store (<[hdu0 := a]> (arrays σ))
               (<[hdr0 := primary_header a h]> (headers σ)) (files σ1)
               ((if negb (naxis w =? 2)%nat && verbose
                 then out σ ++ [PrintNot2D (naxis w) (ctype w)] else out σ)
                ++ (if (naxis w =? 2)%nat && verbose
                    then [PrintDropSuccess (naxis w) (ctype w)] else []))).
  exists σ1, (mk_Handle path 0 hdu0 hdr0 w (scale_arcsec w)), σ2.
  split; [apply save_run; assumption|].
  split; [apply lookup_insert_eq|].
  split; [|simpl; repeat split; apply lookup_insert_eq].
  unfold init_file.
  erewrite bind_ok
    by (eapply open_fits_image_run;
        [apply lookup_insert_eq | reflexivity | exact Hparse]).
  cbv beta iota. cbn [arrays headers files out σ1]. fold hdu0 hdr0.
  destruct (negb (naxis w =? 2)%nat && verbose) eqn:Hnote.
  - erewrite bind_ok by reflexivity.
    erewrite bind_ok by (apply drop_axes_rest; exact Hrest).
    cbv beta iota. unfold σ2.
    destruct ((naxis w =? 2)%nat && verbose).
    + erewrite bind_ok by reflexivity. reflexivity.
    + erewrite bind_ok by reflexivity. rewrite app_nil_r. reflexivity.
  - erewrite bind_ok by reflexivity.
    erewrite bind_ok by (apply drop_axes_rest; exact Hrest).
    cbv beta iota. unfold σ2.
    destruct ((naxis w =? 2)%nat && verbose).
    + erewrite bind_ok by reflexivity. reflexivity.
    + erewrite bind_ok by reflexivity. rewrite app_nil_r. reflexivity.
Qed.
End Round_trip.

Lemma save_then_open_witness :
  ∃ σ1 (self' : Handle (L := Reference.library)) σ2,
    save Reference.image_handle "copy.fits" Reference.loaded = (Ok tt, σ1) ∧
    files σ1 !! "copy.fits"
    = Some [(Reference.image,
             Reference.ref_primary_header Reference.image Reference.image_header)] ∧
    init_file 1 "copy.fits" 0 false σ1 = (Ok self', σ2) ∧
    arrays σ2 !! hdu self' = Some Reference.image ∧
    wcs self' = Reference.image_wcs ∧
    naxis (wcs self') = 2 ∧
    proj_plane_pixel_scales (wcs self') = [0.5; 0.5]%float ∧
    pixel_scale self' = [1800; 1800]%float.
Proof.
  apply (save_then_open Reference.image_handle "copy.fits" 0 false
           Reference.loaded Reference.image Reference.image_header).
  - vm_refl.
  - vm_refl.
  - vm_refl.
  - left. vm_refl.
Defined.

(** C8 as stated, on a handle that wraps the cube as it is: array, header
    and transform agree and have three axes, the first extent being 1.  The
    handle built from the exported file has gone through the reduction
    loop: its array has shape (3, 4), not (1, 3, 4), and its transform has
    two axes, not three. *)
Lemma save_then_open_counterexample :
  AstroImage 0 "" 0 "data" false Reference.cube_kwargs Reference.cube_store
  = (Ok (Some Reference.cube_handle), Reference.cube_store)
  ∧ arrays Reference.cube_store !! hdu Reference.cube_handle = Some Reference.cube
  ∧ save Reference.cube_handle "copy.fits" Reference.cube_store
    = (Ok tt, Reference.cube_saved)
  ∧ (init_file (L := Reference.library) 3 "copy.fits" 0 false
       Reference.cube_saved).1
    = Ok Reference.cube_reopened
  ∧ arrays (init_file (L := Reference.library) 3 "copy.fits" 0 false
              Reference.cube_saved).2
      !! hdu Reference.cube_reopened = Some Reference.image
  ∧ shape Reference.image ≠ shape Reference.cube
  ∧ naxis (wcs Reference.cube_reopened) ≠ naxis (wcs Reference.cube_handle).
Proof.
  repeat split; try vm_refl; vm_compute; discriminate.
Qed.

(** * Further properties of the code *)

(** ** The constructor *)

Section Constructor.
Context `{L : Library}.

(** X1.  In data mode the constructor reads the four keyword arguments in
    the order hdu, hdr, wcs, pixel_scale and raises [KeyError] for the first
    one that is missing; with all four it stores them as they are, checking
    nothing and touching no object. *)
Theorem AstroImage_data_mode fuel url ext verbose kw σ :
  AstroImage fuel url ext "data" verbose kw σ
  = match kw_hdu kw, kw_hdr kw, kw_wcs kw, kw_pixel_scale kw with
    | None, _, _, _ => (Err (KeyError "hdu"), σ)
    | Some _, None, _, _ => (Err (KeyError "hdr"), σ)
    | Some _, Some _, None, _ => (Err (KeyError "wcs"), σ)
    | Some _, Some _, Some _, None => (Err (KeyError "pixel_scale"), σ)
    | Some a, Some h, Some w, Some ps => (Ok (Some (mk_Handle url ext a h w ps)), σ)
    end.
Proof.
  unfold AstroImage. cbn [String.eqb Ascii.eqb Bool.eqb].
  destruct kw as [[a|] [h|] [w|] [ps|]]; reflexivity.
Qed.

(** X2.  With a mode that is neither 'file' nor 'data' the constructor
    returns an object without image attributes: it raises nothing, opens no
    file (the path need not exist) and leaves the store as it was. *)
Theorem AstroImage_unknown_mode fuel url ext mode verbose kw σ :
  mode ≠ "file" → mode ≠ "data" →
  AstroImage fuel url ext mode verbose kw σ = (Ok None, σ).
Proof.
  intros Hfile Hdata. unfold AstroImage.
  apply String.eqb_neq in Hfile, Hdata. rewrite Hfile, Hdata. reflexivity.
Qed.

(** X3.  Construction from a file fails with the reader's error before any
    object exists: a path that is not there gives [FileNotFoundError], an
    extension index past the end of the file gives [IndexError], and in both
    cases the store is unchanged.  An error of the transform parser
    propagates as it is. *)
Theorem init_file_read_errors fuel url ext verbose σ :
  (files σ !! url = None →
   init_file fuel url ext verbose σ = (Err (FileNotFoundError url), σ))
  ∧ (∀ hdulist, files σ !! url = Some hdulist → length hdulist ≤ ext →
       init_file fuel url ext verbose σ = (Err IndexError, σ))
  ∧ (∀ hdulist a h e, files σ !! url = Some hdulist →
       hdulist !! ext = Some (a, h) → WCS_of_header h = Err e →
       (init_file fuel url ext verbose σ).1 = Err e).
Proof.
  split; [|split].
  - intros Hfile. unfold init_file, open_fits_image.
    rewrite !bind_run. unfold fits_open. rewrite Hfile. reflexivity.
  - intros hdulist Hfile Hext. unfold init_file, open_fits_image.
    rewrite !bind_run. unfold fits_open.
    rewrite Hfile, (lookup_ge_None_2 _ _ Hext). reflexivity.
  - intros hdulist a h e Hfile Hext Hwcs. unfold init_file, open_fits_image.
    rewrite bind_run.
    erewrite bind_ok by (unfold fits_open; rewrite Hfile, Hext; reflexivity).
    cbv beta iota.
    erewrite bind_ok by reflexivity.
    erewrite bind_ok by reflexivity.
    erewrite bind_err by (rewrite lift_run, Hwcs; reflexivity).
    reflexivity.
Qed.

(** X4.  For a file whose transform has two axes the loop does not run: the
    handle wraps the array and the header of the file as two new objects,
    the transform as parsed, and its pixel scale times 3600; the only output
    is the success message, printed when [verbose] is set.  The shape of the
    array is not looked at. *)
Theorem init_file_two_axes fuel url ext verbose σ hdulist a0 h0 w0 :
  files σ !! url = Some hdulist →
  hdulist !! ext = Some (a0, h0) →
  WCS_of_header h0 = Ok w0 →
  naxis w0 = 2 →
  init_file (S fuel) url ext verbose σ
  = (Ok (mk_Handle url ext (fresh (dom (arrays σ))) (fresh (dom (headers σ)))
           w0 (scale_arcsec w0)),
     mk_store (<[fresh (dom (arrays σ)) := a0]> (arrays σ))
              (<[fresh (dom (headers σ)) := h0]> (headers σ))
              (files σ)
              (out σ ++ (if verbose then [PrintDropSuccess 2 (ctype w0)] else []))).
Proof.
  intros Hfile Hext Hwcs Htwo. unfold init_file.
  erewrite bind_ok by (eapply open_fits_image_run; eassumption).
  cbv beta iota. rewrite Htwo. cbn [Nat.eqb negb andb].
  erewrite bind_ok by reflexivity.
  erewrite bind_ok by (apply drop_axes_rest; left; exact Htwo).
  cbv beta iota. rewrite Htwo. cbn [Nat.eqb andb].
  destruct verbose.
  - erewrite bind_ok by reflexivity. reflexivity.
  - erewrite bind_ok by reflexivity. cbn [out]. rewrite app_nil_r. reflexivity.
Qed.

(** X5.  When the transform does not have two axes the loop condition reads
    [array_shape[0]]: a transform that knows no array shape ([None]) makes
    construction fail with [TypeError], and one with an empty shape with
    [IndexError].  The array and the header read from the file stay behind
    as objects, and the files are as before. *)
Theorem init_file_no_array_shape fuel url ext verbose σ hdulist a0 h0 w0 :
  files σ !! url = Some hdulist →
  hdulist !! ext = Some (a0, h0) →
  WCS_of_header h0 = Ok w0 →
  naxis w0 ≠ 2 →
  array_shape w0 = None ∨ array_shape w0 = Some [] →
  init_file (S fuel) url ext verbose σ
  = (Err (match array_shape w0 with Some _ => IndexError | None => TypeError end),
     mk_store (<[fresh (dom (arrays σ)) := a0]> (arrays σ))
              (<[fresh (dom (headers σ)) := h0]> (headers σ))
              (files σ)
              (out σ ++ (if verbose then [PrintNot2D (naxis w0) (ctype w0)] else []))).
Proof.
  intros Hfile Hext Hwcs Hne Hshape.
  apply Nat.eqb_neq in Hne. unfold init_file.
  erewrite bind_ok by (eapply open_fits_image_run; eassumption).
  cbv beta iota. rewrite Hne. cbn [negb andb].
  assert (∀ σ', drop_axes (S fuel) (fresh (dom (arrays σ)))
                  (fresh (dom (headers σ))) w0 σ'
                = (Err (match array_shape w0 with Some _ => IndexError | None => TypeError end), σ'))
    as Hloop.
  { intros σ'. cbn [drop_axes]. rewrite Hne. cbn [negb].
    unfold leading_extent. destruct Hshape as [-> | ->]; reflexivity. }
  destruct verbose.
  - erewrite bind_ok by reflexivity.
    erewrite bind_err by apply Hloop. reflexivity.
  - erewrite bind_ok by reflexivity.
    erewrite bind_err by apply Hloop. cbn [out]. rewrite app_nil_r. reflexivity.
Qed.
End Constructor.

Lemma AstroImage_unknown_mode_witness :
  AstroImage (L := Reference.library) 3 "nowhere.fits" 0 "File" true
    (mk_kwargs None None None None) Reference.disk
  = (Ok None, Reference.disk).
Proof. apply AstroImage_unknown_mode; discriminate. Defined.

Lemma init_file_read_errors_witness :
  init_file (L := Reference.library) 3 "nowhere.fits" 0 true Reference.disk
  = (Err (FileNotFoundError "nowhere.fits"), Reference.disk)
  ∧ init_file (L := Reference.library) 3 "image.fits" 1 true Reference.disk
    = (Err IndexError, Reference.disk).
Proof.
  split.
  - apply (proj1 (init_file_read_errors 3 "nowhere.fits" 0 true Reference.disk)).
    vm_refl.
  - apply (proj1 (proj2 (init_file_read_errors 3 "image.fits" 1 true
                           Reference.disk))
             [(Reference.image, Reference.image_header)]).
    + vm_refl.
    + simpl. lia.
Defined.

Lemma init_file_two_axes_witness :
  init_file 1 "image.fits" 0 true Reference.disk
  = (Ok Reference.image_handle, Reference.image_loaded true).
Proof.
  rewrite (init_file_two_axes (L := Reference.library) 0 "image.fits" 0 true
             Reference.disk [(Reference.image, Reference.image_header)]
             Reference.image Reference.image_header Reference.image_wcs);
    vm_refl.
Defined.

Lemma init_file_no_array_shape_witness :
  init_file (L := Reference.library) 1 "bare.fits" 0 false Reference.bare_disk
  = (Err TypeError, Reference.bare_loaded).
Proof.
  rewrite (init_file_no_array_shape (L := Reference.library) 0 "bare.fits" 0
             false Reference.bare_disk [(Reference.image, Reference.bare_header)]
             Reference.image Reference.bare_header
             (Reference.mk_ref_wcs 3 None [0; 0; 0]%float [1; 1; 1]%float)).
  - vm_refl.
  - vm_refl.
  - vm_refl.
  - vm_refl.
  - vm_compute. lia.
  - left. vm_refl.
Defined.

(** ** The pixel buffer through the reduction loop *)

Lemma pixels_take_take n m p :
  pixels_take n (pixels_take m p) = pixels_take (n `min` m) p.
Proof. destruct p; simpl; rewrite take_take; reflexivity. Qed.

Lemma pixels_length_take n p :
  pixels_length (pixels_take n p) = n `min` pixels_length p.
Proof. destruct p; simpl; apply length_take. Qed.

Lemma pixels_take_all n p : pixels_length p ≤ n → pixels_take n p = p.
Proof. destruct p; simpl; intros Hn; rewrite take_ge by exact Hn; reflexivity. Qed.

Lemma extent_product_app s t :
  extent_product (s ++ t) = extent_product s * extent_product t.
Proof.
  induction s as [|n s IH]; simpl; [lia|].
  unfold extent_product in *. simpl. rewrite IH. lia.
Qed.

Lemma extent_product_positive s :
  Forall (λ n, 0 < n) s → 0 < extent_product s.
Proof.
  induction 1 as [|n s Hn _ IH]; unfold extent_product in *; simpl; [lia|nia].
Qed.

Lemma extent_product_ones k : extent_product (replicate k 1) = 1.
Proof. induction k as [|k IH]; unfold extent_product in *; simpl; lia. Qed.

Section Buffer.
Context `{L : Library}.

(** The loop only ever takes [a[0]]: the array it ends with has the shape
    of the one it started with minus [k] leading extents, none of them 0,
    and its buffer is the leading block of that size. *)
Lemma drop_axes_block fuel : ∀ hdu hdr w a σ hdu1 w1 σ1,
  drop_axes fuel hdu hdr w σ = (Ok (hdu1, w1), σ1) →
  arrays σ !! hdu = Some a →
  well_formed a →
  ∃ a1 k,
    arrays σ1 !! hdu1 = Some a1 ∧
    shape a1 = drop k (shape a) ∧
    Forall (λ n, 0 < n) (take k (shape a)) ∧
    data a1 = pixels_take (extent_product (shape a1)) (data a) ∧
    well_formed a1.
Proof.
  induction fuel as [|fuel IH]; intros hdu hdr w a σ hdu1 w1 σ1 Hrun Ha Hwf.
  { discriminate Hrun. }
  assert (∃ a1 k, arrays σ !! hdu = Some a1 ∧ shape a1 = drop k (shape a) ∧
                  Forall (λ n, 0 < n) (take k (shape a)) ∧
                  data a1 = pixels_take (extent_product (shape a1)) (data a) ∧
                  well_formed a1) as Hstay.
  { exists a, 0. rewrite drop_0, take_0.
    repeat split; auto. symmetry. apply pixels_take_all. rewrite Hwf. lia. }
  cbn [drop_axes] in Hrun.
  destruct (negb (naxis w =? 2)%nat); [|inversion Hrun; subst; exact Hstay].
  apply bind_ok_inv in Hrun as (n & σa & Hlead & Hrun).
  assert (σa = σ) as ->.
  { unfold leading_extent in Hlead.
    destruct (array_shape w) as [[|? ?]|]; inversion Hlead; reflexivity. }
  destruct (n =? 1)%nat; [|inversion Hrun; subst; exact Hstay].
  apply bind_ok_inv in Hrun as (a' & σb & Hread & Hrun).
  apply read_array_inv in Hread as [Ha' ->].
  assert (a' = a) as -> by congruence.
  apply bind_ok_inv in Hrun as (a0 & σc & Hget & Hrun).
  apply lift_inv in Hget as [Hget ->].
  unfold getitem0 in Hget.
  destruct (shape a) as [|[|s0] rest] eqn:Hshape; try discriminate Hget.
  injection Hget as <-.
  apply bind_ok_inv in Hrun as (hdu' & σd & Halloc & Hrun).
  injection Halloc as <- <-.
  apply bind_ok_inv in Hrun as (w' & σe & Hdrop & Hrun).
  apply lift_inv in Hdrop as [_ ->].
  apply bind_ok_inv in Hrun as (h & σf & Hread & Hrun).
  apply read_header_inv in Hread as [_ ->].
  apply bind_ok_inv in Hrun as ([] & σg & Hwrite & Hrun).
  injection Hwrite as <-.
  set (a0 := mk_ndarray rest (pixels_take (extent_product rest) (data a))) in *.
  assert (well_formed a0) as Hwf0.
  { unfold well_formed in *. unfold a0. cbn [data shape].
    rewrite pixels_length_take, Hwf, Hshape.
    change (extent_product (S s0 :: rest)) with (S s0 * extent_product rest).
    apply Nat.min_l. nia. }
  destruct (IH _ _ _ a0 _ _ _ _ Hrun) as (a1 & k & Ha1 & Hsh1 & Hpos & Hdata & Hwf1);
    [cbn [arrays]; apply lookup_insert_eq | exact Hwf0 |].
  subst a0. cbn [shape data] in *.
  exists a1, (S k). cbn [drop take].
  repeat split; auto.
  - constructor; [lia | exact Hpos].
  - rewrite Hdata. rewrite pixels_take_take. f_equal.
    apply Nat.min_l. rewrite Hsh1.
    rewrite <- (take_drop k rest) at 2. rewrite extent_product_app.
    pose proof (extent_product_positive _ Hpos). nia.
Qed.

(** X6.  The array of a handle built from a file is the array of the file
    without [k] of its leading axes, and its buffer is the first block of
    the file's buffer of that size: the loop never reorders or rewrites
    pixels.  When the extents removed are all 1 every pixel of the file is
    kept, in order.  This holds whatever the transform library does. *)
Theorem init_file_keeps_pixels fuel url ext verbose σ hdulist a0 h0 self σ1 :
  files σ !! url = Some hdulist →
  hdulist !! ext = Some (a0, h0) →
  well_formed a0 →
  init_file fuel url ext verbose σ = (Ok self, σ1) →
  ∃ a1 k,
    arrays σ1 !! hdu self = Some a1 ∧
    shape a1 = drop k (shape a0) ∧
    data a1 = pixels_take (extent_product (shape a1)) (data a0) ∧
    (take k (shape a0) = replicate k 1 → data a1 = data a0).
Proof.
  intros Hfile Hext Hwf Hrun. unfold init_file in Hrun.
  apply bind_ok_inv in Hrun as ([[hdu0 hdr0] w0] & σ0 & Hopen & Hrun).
  unfold open_fits_image in Hopen.
  erewrite bind_ok in Hopen
    by (unfold fits_open; rewrite Hfile, Hext; reflexivity).
  cbv beta iota in Hopen.
  erewrite bind_ok in Hopen by reflexivity.
  erewrite bind_ok in Hopen by reflexivity.
  apply bind_ok_inv in Hopen as (w & σw & Hw & Hopen).
  apply lift_inv in Hw as [_ ->]. injection Hopen as <- <- <- <-.
  apply bind_ok_inv in Hrun as ([] & σp & Hprint & Hrun).
  assert (arrays σp = <[fresh (dom (arrays σ)) := a0]> (arrays σ)) as Hσp.
  { destruct (negb (naxis w =? 2)%nat && verbose); injection Hprint as <-; reflexivity. }
  apply bind_ok_inv in Hrun as ([hdu1 w1] & σ2 & Hloop & Hrun).
  destruct (drop_axes_block _ _ _ _ a0 _ _ _ _ Hloop)
    as (a1 & k & Ha1 & Hsh1 & Hpos & Hdata & Hwf1);
    [rewrite Hσp; apply lookup_insert_eq | exact Hwf |].
  apply bind_ok_inv in Hrun as ([] & σq & Hprint2 & Hrun).
  assert (arrays σq = arrays σ2) as Hσq.
  { destruct ((naxis w1 =? 2)%nat && verbose); injection Hprint2 as <-; reflexivity. }
  injection Hrun as <- <-. cbn [hdu].
  exists a1, k. rewrite Hσq. repeat split; auto.
  intros Hones. rewrite Hdata. apply pixels_take_all.
  rewrite Hwf, Hsh1. rewrite <- (take_drop k (shape a0)) at 1.
  rewrite extent_product_app, Hones, extent_product_ones. lia.
Qed.
End Buffer.

Lemma init_file_keeps_pixels_witness :
  ∃ a1 k,
    arrays (init_file (L := Reference.library) 2 "cube.fits" 0 false
              Reference.disk).2 !! 1 = Some a1 ∧
    shape a1 = drop k (shape Reference.cube) ∧
    data a1 = pixels_take (extent_product (shape a1)) (data Reference.cube) ∧
    (take k (shape Reference.cube) = replicate k 1 → data a1 = data Reference.cube).
Proof.
  apply (init_file_keeps_pixels (L := Reference.library) 2 "cube.fits" 0 false
           Reference.disk [(Reference.cube, Reference.cube_header)]
           Reference.cube Reference.cube_header Reference.cube_loaded_handle
           (init_file (L := Reference.library) 2 "cube.fits" 0 false
              Reference.disk).2).
  - vm_refl.
  - vm_refl.
  - reflexivity.
  - vm_refl.
Defined.

(** ** More on cutouts *)

Section Cutout_effects.
Context `{L : Library}.

Lemma first_row_xy_store rows σ r σ' : first_row_xy rows σ = (r, σ') → σ' = σ.
Proof.
  destruct rows as [|[|x [|y [|z row]]] rows]; intros Hrun; inversion Hrun; reflexivity.
Qed.

(** A successful cutout of either kind has gone through the shared tail. *)
Lemma cutout_ok_tail (self : Handle) coord box σ child σ' :
  cutout self coord box σ = (Ok child, σ') ∨
  cutout_pixel self coord box σ = (Ok child, σ') →
  ∃ xy box_pix, crop_and_wrap self xy box_pix σ = (Ok child, σ').
Proof.
  intros [Hrun | Hrun].
  - rewrite cutout_unfold in Hrun.
    apply bind_ok_inv in Hrun as (rows & σ1 & Hrows & Hrun).
    apply lift_inv in Hrows as [_ ->].
    apply bind_ok_inv in Hrun as (xy & σ2 & Hxy & Hrun).
    apply first_row_xy_store in Hxy as ->.
    apply bind_ok_inv in Hrun as (box_pix & σ3 & Hbox & Hrun).
    apply lift_inv in Hbox as [_ ->]. eauto.
  - rewrite cutout_pixel_unfold in Hrun.
    apply bind_ok_inv in Hrun as (rows & σ1 & Hrows & Hrun).
    apply lift_inv in Hrows as [_ ->].
    apply bind_ok_inv in Hrun as (xy & σ2 & Hxy & Hrun).
    apply first_row_xy_store in Hxy as ->. eauto.
Qed.

Lemma crop_and_wrap_clean (self : Handle) xy box σ r σ' :
  crop_and_wrap self xy box σ = (r, σ') →
  (∀ child, r ≠ Ok child) → σ' = σ.
Proof.
  unfold crop_and_wrap. rewrite bind_run. unfold read_array.
  destruct (arrays σ !! hdu self) as [a|]; [|intros Hrun; inversion Hrun; reflexivity].
  rewrite bind_run, lift_run.
  destruct (Cutout2D a xy box (wcs self) Partial) as [[data_crop wcs_crop]|e|];
    [|intros Hrun; inversion Hrun; reflexivity..].
  rewrite bind_run. unfold read_header.
  destruct (headers σ !! hdr self) as [h|]; [|intros Hrun; inversion Hrun; reflexivity].
  intros Hrun Hfail. inversion Hrun; subst. exfalso. eapply Hfail. reflexivity.
Qed.

(** X7.  A cutout that does not return a handle has changed nothing: the
    parent's header is updated only after [Cutout2D] has answered, so a
    refused coordinate, a bad box or a refused crop leave the store, and
    with it the shared header, exactly as they were. *)
Theorem cutout_failure_changes_nothing (self : Handle) coord box σ r σ' :
  cutout self coord box σ = (r, σ') ∨ cutout_pixel self coord box σ = (r, σ') →
  (∀ child, r ≠ Ok child) →
  σ' = σ.
Proof.
  intros Hrun Hfail.
  assert (∀ (m : M (float * float)) (k : float * float → M Handle),
            (∀ σ0 r0 σ0', m σ0 = (r0, σ0') → σ0' = σ0) →
            (∀ xy σ0 r0 σ0', k xy σ0 = (r0, σ0') → (∀ c, r0 ≠ Ok c) → σ0' = σ0) →
            (m ≫= k) σ = (r, σ') → σ' = σ) as Hseq.
  { intros m k Hm Hk. rewrite bind_run.
    destruct (m σ) as [[xy|e|] σ0] eqn:Hmσ; apply Hm in Hmσ as ->.
    - intros Hrun'. eapply Hk; eauto.
    - intros Hrun'. inversion Hrun'; reflexivity.
    - intros Hrun'. inversion Hrun'; reflexivity. }
  destruct Hrun as [Hrun | Hrun].
  - rewrite cutout_unfold in Hrun. rewrite bind_run, lift_run in Hrun.
    destruct (wcs_world2pix (wcs self) [coord] 0) as [rows|e|];
      [|inversion Hrun; reflexivity..].
    revert Hrun. apply Hseq; [apply first_row_xy_store|].
    intros xy σ0 r0 σ0'. rewrite bind_run, lift_run.
    destruct (np_divide box (pixel_scale self)) as [box_pix|e|];
      [|intros Hrun; inversion Hrun; reflexivity..].
    apply crop_and_wrap_clean.
  - rewrite cutout_pixel_unfold in Hrun. rewrite bind_run, lift_run in Hrun.
    destruct (wcs_world2pix (wcs self) [coord] 0) as [rows|e|];
      [|inversion Hrun; reflexivity..].
    revert Hrun. apply Hseq; [apply first_row_xy_store|].
    intros xy σ0 r0 σ0'. apply crop_and_wrap_clean.
Qed.

(** X8.  A successful cutout only adds: the crop is held under a location
    that was not in use, every array that existed (the parent's among them)
    has the pixels it had, files and output are untouched, and the child
    takes the parent's pixel scale as it is, with an empty url and
    extension 0. *)
Theorem cutout_only_adds (self : Handle) coord box σ child σ' :
  cutout self coord box σ = (Ok child, σ') ∨
  cutout_pixel self coord box σ = (Ok child, σ') →
  (hdu child ∉ dom (arrays σ)) ∧
  (∀ l, l ∈ dom (arrays σ) → arrays σ' !! l = arrays σ !! l) ∧
  arrays σ' !! hdu self = arrays σ !! hdu self ∧
  files σ' = files σ ∧ out σ' = out σ ∧
  pixel_scale child = pixel_scale self ∧ url child = "" ∧ ext child = 0.
Proof.
  intros Hrun. apply cutout_ok_tail in Hrun as (xy & box_pix & Htail).
  apply crop_and_wrap_inv in Htail
    as (a & h & data_crop & Ha & Hh & Hcut & -> & ->).
  cbn [child_of store_after_crop hdu arrays files out pixel_scale url ext].
  assert (∀ l, l ∈ dom (arrays σ) →
          <[fresh (dom (arrays σ)) := data_crop]> (arrays σ) !! l = arrays σ !! l)
    as Hframe.
  { intros l Hl. apply lookup_insert_ne. intros <-.
    exact (is_fresh (dom (arrays σ)) Hl). }
  repeat split; auto.
  - apply is_fresh.
  - apply Hframe. apply elem_of_dom. eauto.
Qed.

(** X9.  In both cutout methods the first row of the world-to-pixel answer
    is unpacked into exactly two numbers: a row of any other length (as a
    transform of three axes gives) raises [ValueError], an empty answer
    [IndexError], and the store is unchanged. *)
Theorem cutout_unpacks_two (self : Handle) coord box σ rows :
  wcs_world2pix (wcs self) [coord] 0 = Ok rows →
  (rows = [] →
   cutout self coord box σ = (Err IndexError, σ) ∧
   cutout_pixel self coord box σ = (Err IndexError, σ))
  ∧ (∀ row rest, rows = row :: rest → length row ≠ 2 →
     cutout self coord box σ = (Err ValueError, σ) ∧
     cutout_pixel self coord box σ = (Err ValueError, σ)).
Proof.
  intros Hrows. split.
  - intros ->. rewrite cutout_unfold, cutout_pixel_unfold.
    split; (erewrite bind_ok by (rewrite lift_run, Hrows; reflexivity));
      reflexivity.
  - intros row rest -> Hlen. rewrite cutout_unfold, cutout_pixel_unfold.
    assert (first_row_xy (row :: rest) σ = (Err ValueError, σ)) as Hrow.
    { destruct row as [|x [|y [|z row]]]; simpl in Hlen; try reflexivity; lia. }
    split; (erewrite bind_ok by (rewrite lift_run, Hrows; reflexivity));
      (erewrite bind_err by exact Hrow); reflexivity.
Qed.

(** X10.  Cutouts of cutouts keep writing into the one header object of the
    first parent: after two cuts the grandchild's header is that object,
    holding the original cards updated by the first and then by the second
    transform, so that every card of the last transform is the one read;
    the pixel scale is still the first parent's. *)
Theorem cutout_of_cutout_one_header
    (self : Handle) coord1 box1 coord2 box2 σ c1 σ1 c2 σ2 h :
  cutout self coord1 box1 σ = (Ok c1, σ1) ∨
    cutout_pixel self coord1 box1 σ = (Ok c1, σ1) →
  cutout c1 coord2 box2 σ1 = (Ok c2, σ2) ∨
    cutout_pixel c1 coord2 box2 σ1 = (Ok c2, σ2) →
  headers σ !! hdr self = Some h →
  hdr c2 = hdr self ∧
  headers σ2 !! hdr self
  = Some (header_update (header_update h (to_header (wcs c1)))
            (to_header (wcs c2))) ∧
  (∀ key v, to_header (wcs c2) !! key = Some v →
     ∃ h2, headers σ2 !! hdr self = Some h2 ∧ h2 !! key = Some v) ∧
  pixel_scale c2 = pixel_scale self.
Proof.
  intros Hcut1 Hcut2 Hh.
  apply cutout_ok_tail in Hcut1 as (xy1 & bp1 & Htail1).
  apply crop_and_wrap_inv in Htail1
    as (a1 & h1 & d1 & Ha1 & Hh1 & _ & Hc1 & Hσ1).
  assert (h1 = h) as -> by congruence.
  apply cutout_ok_tail in Hcut2 as (xy2 & bp2 & Htail2).
  apply crop_and_wrap_inv in Htail2
    as (a2 & h2 & d2 & Ha2 & Hh2 & _ & Hc2 & Hσ2).
  assert (hdr c1 = hdr self) as Hhdr1 by (rewrite Hc1; reflexivity).
  assert (pixel_scale c1 = pixel_scale self) as Hps1 by (rewrite Hc1; reflexivity).
  rewrite Hhdr1 in *.
  assert (h2 = header_update h (to_header (wcs c1))) as ->.
  { rewrite Hσ1 in Hh2. cbn [headers store_after_crop] in Hh2.
    rewrite lookup_insert_eq in Hh2. congruence. }
  assert (headers σ2 !! hdr self
          = Some (header_update (header_update h (to_header (wcs c1)))
                    (to_header (wcs c2)))) as Hfinal.
  { rewrite Hσ2. cbn [headers store_after_crop]. rewrite Hhdr1.
    apply lookup_insert_eq. }
  repeat split.
  - rewrite Hc2. cbn [hdr child_of]. exact Hhdr1.
  - exact Hfinal.
  - intros key v Hkey. eexists. split; [exact Hfinal|].
    unfold header_update. apply lookup_union_Some_l. exact Hkey.
  - rewrite Hc2. cbn [pixel_scale child_of]. exact Hps1.
Qed.

(** X11.  Saving the parent after a cutout exports the parent's pixels
    under a header that carries the transform of the child: the cutout has
    updated the header object the parent writes out. *)
Theorem save_after_cutout (self : Handle) coord box path σ child σ1 a h :
  cutout self coord box σ = (Ok child, σ1) ∨
    cutout_pixel self coord box σ = (Ok child, σ1) →
  arrays σ !! hdu self = Some a →
  headers σ !! hdr self = Some h →
  ∃ σ2,
    save self path σ1 = (Ok tt, σ2) ∧
    files σ2 !! path
    = Some [(a, primary_header a (header_update h (to_header (wcs child))))].
Proof.
  intros Hcut Ha Hh.
  apply cutout_ok_tail in Hcut as (xy & bp & Htail).
  apply crop_and_wrap_inv in Htail
    as (a' & h' & d & Ha' & Hh' & _ & Hc & ->).
  assert (h' = h) as -> by congruence.
  eexists. split.
  - apply save_run.
    + cbn [arrays store_after_crop]. rewrite lookup_insert_ne; [exact Ha|].
      intros Heq. apply (is_fresh (dom (arrays σ))). rewrite Heq.
      apply elem_of_dom. eauto.
    + cbn [headers store_after_crop]. apply lookup_insert_eq.
  - cbn [files]. apply lookup_insert_eq.
Qed.
End Cutout_effects.

Lemma cutout_failure_changes_nothing_witness :
  (cutout Reference.image_handle [100; 100]%float [3600; 3600]%float
     Reference.loaded).2 = Reference.loaded.
Proof.
  apply (cutout_failure_changes_nothing Reference.image_handle [100; 100]%float
           [3600; 3600]%float Reference.loaded
           (Err (LibraryError "NoOverlapError"))).
  - left. vm_refl.
  - intros child Heq. discriminate Heq.
Defined.

Lemma cutout_only_adds_witness :
  (hdu Reference.corner_child ∉ dom (arrays Reference.loaded)) ∧
  (∀ l, l ∈ dom (arrays Reference.loaded) →
        arrays Reference.after_corner_cutout !! l = arrays Reference.loaded !! l) ∧
  arrays Reference.after_corner_cutout !! hdu Reference.image_handle
  = arrays Reference.loaded !! hdu Reference.image_handle ∧
  files Reference.after_corner_cutout = files Reference.loaded ∧
  out Reference.after_corner_cutout = out Reference.loaded ∧
  pixel_scale Reference.corner_child = pixel_scale Reference.image_handle ∧
  url Reference.corner_child = "" ∧ ext Reference.corner_child = 0.
Proof.
  apply (cutout_only_adds Reference.image_handle [0; 0]%float
           [3600; 3600]%float Reference.loaded).
  left. vm_refl.
Defined.

Lemma cutout_unpacks_two_witness :
  cutout Reference.stack_handle [0; 0; 0]%float [1; 1]%float Reference.after_stack
  = (Err ValueError, Reference.after_stack)
  ∧ cutout_pixel Reference.stack_handle [0; 0; 0]%float [1; 1]%float
      Reference.after_stack
    = (Err ValueError, Reference.after_stack).
Proof.
  apply (proj2 (cutout_unpacks_two Reference.stack_handle [0; 0; 0]%float
                  [1; 1]%float Reference.after_stack [[-1; -1; -1]%float]
                  ltac:(vm_refl))
           [-1; -1; -1]%float []).
  - reflexivity.
  - simpl. lia.
Defined.

Lemma cutout_of_cutout_one_header_witness :
  hdr Reference.corner_grandchild = hdr Reference.image_handle ∧
  headers (cutout Reference.corner_child [0; 0]%float [3600; 3600]%float
             Reference.after_corner_cutout).2 !! hdr Reference.image_handle
  = Some (header_update
            (header_update Reference.image_header
               (to_header (wcs Reference.corner_child)))
            (to_header (wcs Reference.corner_grandchild))).
Proof.
  destruct (cutout_of_cutout_one_header Reference.image_handle
              [0; 0]%float [3600; 3600]%float [0; 0]%float [3600; 3600]%float
              Reference.loaded Reference.corner_child
              Reference.after_corner_cutout Reference.corner_grandchild
              (cutout Reference.corner_child [0; 0]%float [3600; 3600]%float
                 Reference.after_corner_cutout).2 Reference.image_header)
    as (Hhdr & Hheader & _).
  - left. vm_refl.
  - left. vm_refl.
  - vm_refl.
  - split; assumption.
Defined.

Lemma save_after_cutout_witness :
  ∃ σ2,
    save Reference.image_handle "parent.fits" Reference.after_corner_cutout
    = (Ok tt, σ2) ∧
    files σ2 !! "parent.fits"
    = Some [(Reference.image,
             primary_header (Library := Reference.library) Reference.image
               (header_update Reference.image_header
                  (to_header (wcs Reference.corner_child))))].
Proof.
  apply (save_after_cutout Reference.image_handle [0; 0]%float
           [3600; 3600]%float "parent.fits" Reference.loaded
           Reference.corner_child).
  - left. vm_refl.
  - vm_refl.
  - vm_refl.
Defined.

(** ** More on masking *)

Lemma add_nan_r (x : float) : (x + nan)%float = nan.
Proof.
  apply Prim2SF_inj. rewrite add_spec.
  change (Prim2SF nan) with S754_nan.
  destruct (Prim2SF x) as [[|]|[|]| |[|] m e]; reflexivity.
Qed.

Lemma add_infinity_r (x : float) :
  (x + infinity)%float = infinity ∨ (x + infinity)%float = nan.
Proof.
  destruct (Prim2SF x) as [sx|[|]| |sx m e] eqn:Hx.
  - left. apply Prim2SF_inj. rewrite add_spec, Hx. reflexivity.
  - right. apply Prim2SF_inj. rewrite add_spec, Hx. reflexivity.
  - left. apply Prim2SF_inj. rewrite add_spec, Hx. reflexivity.
  - right. apply Prim2SF_inj. rewrite add_spec, Hx. reflexivity.
  - left. apply Prim2SF_inj. rewrite add_spec, Hx. reflexivity.
Qed.

Lemma nothing_above_nan (y : float) : (nan <? y)%float = false.
Proof. rewrite ltb_spec. reflexivity. Qed.

Lemma nothing_above_infinity (y : float) : (infinity <? y)%float = false.
Proof.
  rewrite ltb_spec. change (Prim2SF infinity) with (S754_infinity false).
  destruct (Prim2SF y) as [sy|[|]| |sy m e]; reflexivity.
Qed.

Section Masking_edges.
Context `{L : Library}.

Lemma filter_none {A} (P : A → bool) (l : list A) :
  (∀ x, P x = false) → filter (λ x, P x = true) l = [].
Proof.
  intros Hnone. induction l as [|x l IH]; [reflexivity|].
  rewrite filter_cons. destruct (decide (P x = true)) as [Hx|_]; [|exact IH].
  rewrite Hnone in Hx. discriminate Hx.
Qed.

Lemma mask_blank_none_flagged (self : Handle) threshold σ a :
  arrays σ !! hdu self = Some a →
  (∀ c, exceeds (critical_counts ((np_unique (data a)).*2) threshold) c = false) →
  mask_blank self threshold σ
  = (Ok self,
     mk_store (arrays σ) (headers σ) (files σ)
       (out σ ++ [PrintCritical
                    (critical_counts ((np_unique (data a)).*2) threshold)])).
Proof.
  intros Ha Hnone. unfold mask_blank.
  erewrite bind_ok by (apply read_array_ok, Ha).
  cbv zeta. erewrite bind_ok by reflexivity.
  rewrite (filter_none (λ vc, exceeds _ vc.2)) by (intros vc; apply Hnone).
  reflexivity.
Qed.

(** X12.  On an integer array [mask_blank] cannot mask: as soon as one value
    is flagged, the assignment of NaN raises [ValueError], after the
    critical count and the first flagged value have been printed; when no
    value is flagged it returns the handle.  Either way the array is as it
    was. *)
Theorem mask_blank_integer (self : Handle) threshold σ s d :
  arrays σ !! hdu self = Some (mk_ndarray s (Int64 d)) →
  let counted := unique_counts Z.eqb Z.ltb d in
  let critical := critical_counts (counted.*2) threshold in
  mask_blank self threshold σ
  = match filter (λ vc, exceeds critical vc.2 = true) counted with
    | [] =>
        (Ok self,
         mk_store (arrays σ) (headers σ) (files σ)
                  (out σ ++ [PrintCritical critical]))
    | (v, c) :: _ =>
        (Err ValueError,
         mk_store (arrays σ) (headers σ) (files σ)
                  (out σ ++ [PrintCritical critical; PrintMode c (IntV v)]))
    end.
Proof.
  intros Ha counted critical. unfold mask_blank.
  erewrite bind_ok by (apply read_array_ok, Ha).
  cbn [data np_unique]. rewrite snd_prod_map.
  fold counted. fold critical.
  erewrite bind_ok by reflexivity.
  rewrite filter_prod_map_snd.
  destruct (filter (λ vc, exceeds critical vc.2 = true) counted) as [|[v c] rest].
  - reflexivity.
  - rewrite fmap_cons. cbn [mask_values prod_map id fst snd].
    rewrite bind_assoc_run.
    erewrite bind_err; [|unfold mask_value;
      erewrite bind_ok by reflexivity;
      erewrite bind_ok by (apply read_array_ok; cbn [arrays]; exact Ha);
      cbn [data]; erewrite bind_err by reflexivity; reflexivity].
    cbn [fst snd arrays headers files out]. rewrite <- app_assoc. reflexivity.
Qed.

(** X13.  A threshold that is NaN or +infinity switches the masking off:
    the critical count is then NaN or +infinity, no count is above it, and
    [mask_blank] returns the handle with every array untouched, for arrays
    of either type. *)
Theorem mask_blank_unreachable_threshold (self : Handle) threshold σ a :
  threshold = nan ∨ threshold = infinity →
  arrays σ !! hdu self = Some a →
  mask_blank self threshold σ
  = (Ok self,
     mk_store (arrays σ) (headers σ) (files σ)
       (out σ ++ [PrintCritical
                    (critical_counts ((np_unique (data a)).*2) threshold)])).
Proof.
  intros Hthreshold Ha. apply mask_blank_none_flagged; [exact Ha|].
  intros c. unfold exceeds, critical_counts.
  destruct Hthreshold as [-> | ->].
  - rewrite add_nan_r. apply nothing_above_nan.
  - destruct (add_infinity_r
                (np_mean (np_unique (data a)).*2
                 + 5 * np_std (np_unique (data a)).*2)%float) as [-> | ->].
    + apply nothing_above_infinity.
    + apply nothing_above_nan.
Qed.

(** X14.  On an array without pixels there is no value to count:
    [mask_blank] prints the critical count of an empty list of counts and
    returns the handle, with the store otherwise untouched. *)
Theorem mask_blank_no_pixels (self : Handle) threshold σ a :
  arrays σ !! hdu self = Some a →
  pixels_length (data a) = 0 →
  mask_blank self threshold σ
  = (Ok self,
     mk_store (arrays σ) (headers σ) (files σ)
              (out σ ++ [PrintCritical (critical_counts [] threshold)])).
Proof.
  intros Ha Hempty.
  assert (np_unique (data a) = []) as Hunique.
  { destruct (data a) as [[|x d]|[|x d]]; try discriminate Hempty; reflexivity. }
  unfold mask_blank.
  erewrite bind_ok by (apply read_array_ok, Ha).
  rewrite Hunique. reflexivity.
Qed.
End Masking_edges.

Lemma mask_blank_integer_witness :
  mask_blank Reference.int_handle 100 Reference.int_store
  = (Ok Reference.int_handle,
     mk_store (arrays Reference.int_store) (headers Reference.int_store) ∅
       [PrintCritical 107]).
Proof.
  rewrite (mask_blank_integer Reference.int_handle 100 Reference.int_store
             [2; 2] [0; 0; 0; 1]%Z) by vm_refl.
  vm_refl.
Defined.

Lemma mask_blank_unreachable_threshold_witness :
  mask_blank Reference.image_handle infinity Reference.loaded
  = (Ok Reference.image_handle,
     mk_store (arrays Reference.loaded) (headers Reference.loaded)
       (files Reference.loaded) [PrintCritical infinity]).
Proof.
  rewrite (mask_blank_unreachable_threshold Reference.image_handle infinity
             Reference.loaded Reference.image) by (auto; vm_refl).
  vm_refl.
Defined.

Lemma mask_blank_no_pixels_witness :
  mask_blank Reference.int_handle 0 Reference.empty_store
  = (Ok Reference.int_handle,
     mk_store (arrays Reference.empty_store) (headers Reference.empty_store) ∅
       [PrintCritical nan]).
Proof.
  rewrite (mask_blank_no_pixels Reference.int_handle 0 Reference.empty_store
             Reference.empty_image) by vm_refl.
  vm_refl.
Defined.

(** ** Methods that only read *)




Section Readers.
Context `{L : Library}.

Lemma reads_only_ret {A} (a : A) : reads_only (mret a).
Proof. intros σ r σ' Hrun. inversion Hrun; reflexivity. Qed.

Lemma reads_only_raise {A} (e : exn) : reads_only (raise (A := A) e).
Proof. intros σ r σ' Hrun. inversion Hrun; reflexivity. Qed.

Lemma reads_only_lift {A} (x : result A) : reads_only (lift x).
Proof. intros σ r σ' Hrun. inversion Hrun; reflexivity. Qed.

Lemma reads_only_read_array l : reads_only (read_array l).
Proof.
  intros σ r σ'. unfold read_array.
  destruct (arrays σ !! l); intros Hrun; inversion Hrun; reflexivity.
Qed.

Lemma reads_only_bind {A B} (m : M A) (k : A → M B) :
  reads_only m → (∀ a, reads_only (k a)) → reads_only (m ≫= k).
Proof.
  intros Hm Hk σ r σ'. rewrite bind_run.
  destruct (m σ) as [[a|e|] σ1] eqn:Hmσ; apply Hm in Hmσ as ->.
  - apply Hk.
  - intros Hrun; inversion Hrun; reflexivity.
  - intros Hrun; inversion Hrun; reflexivity.
Qed.

Lemma reads_only_fmap {A B} (f : A → B) (m : M A) :
  reads_only m → reads_only (f <$> m).
Proof.
  intros Hm. apply reads_only_bind; [exact Hm|].
  intros a. apply reads_only_ret.
Qed.

Lemma reads_only_getitem {A} (l : list A) i : reads_only (getitem l i).
Proof.
  unfold getitem. destruct (l !! i); [apply reads_only_ret | apply reads_only_raise].
Qed.

Lemma reads_only_preview (self : Handle) color_map gamma :
  reads_only (preview self color_map gamma).
Proof.
  apply reads_only_bind; [apply reads_only_read_array|].
  intros a. apply reads_only_lift.
Qed.

Lemma reads_only_sigma_clipped_stats (self : Handle) sigma maxiters :
  reads_only (sigma_clipped_stats self sigma maxiters).
Proof.
  apply reads_only_bind; [apply reads_only_read_array|].
  intros a. apply reads_only_lift.
Qed.

(** X15.  [photometry], [sigma_clipped_stats], [mag_err] and [preview]
    never change an array, a header, a file or the output, whether they
    return or raise. *)
Theorem measuring_reads_only (self : Handle) :
  (∀ coord r mode zeropoint plot,
     reads_only (photometry self coord r mode zeropoint plot))
  ∧ (∀ sigma maxiters, reads_only (sigma_clipped_stats self sigma maxiters))
  ∧ (∀ mag zeropoint area, reads_only (mag_err self mag zeropoint area))
  ∧ (∀ color_map gamma, reads_only (preview self color_map gamma)).
Proof.
  split; [|split; [|split]].
  - intros coord r mode zeropoint plot. unfold photometry.
    apply reads_only_bind.
    { destruct (String.eqb mode "pixel").
      - apply reads_only_fmap, reads_only_lift.
      - destruct (String.eqb mode "sky"); [|apply reads_only_ret].
        apply reads_only_bind; [apply reads_only_getitem|]. intros ra.
        apply reads_only_bind; [apply reads_only_getitem|]. intros dec.
        apply reads_only_fmap, reads_only_lift. }
    intros positions. apply reads_only_bind.
    { destruct positions; [apply reads_only_ret | apply reads_only_raise]. }
    intros pos. apply reads_only_bind; [apply reads_only_lift|].
    intros aperture. apply reads_only_bind; [apply reads_only_read_array|].
    intros a. apply reads_only_bind; [apply reads_only_lift|].
    intros counts. cbv zeta. destruct (negb plot); [apply reads_only_ret|].
    apply reads_only_bind; [apply reads_only_preview|].
    intros fig. apply reads_only_bind; [apply reads_only_lift|].
    intros fig'. apply reads_only_ret.
  - intros sigma maxiters. apply reads_only_sigma_clipped_stats.
  - intros mag zeropoint area. unfold mag_err.
    apply reads_only_bind; [apply reads_only_sigma_clipped_stats|].
    intros [[mean median] stddev]. apply reads_only_ret.
  - intros color_map gamma. apply reads_only_preview.
Qed.

(** X16.  In sky mode [photometry] reads [coord[0]] and [coord[1]]: with
    fewer than two coordinates it raises [IndexError] before any library
    routine is called. *)
Theorem photometry_sky_needs_two (self : Handle) coord r zeropoint plot σ :
  length coord < 2 →
  photometry self coord r "sky" zeropoint plot σ = (Err IndexError, σ).
Proof.
  intros Hlen. unfold photometry. cbn [String.eqb Ascii.eqb Bool.eqb].
  destruct coord as [|ra [|dec coord]]; [reflexivity | reflexivity |].
  simpl in Hlen. lia.
Qed.

(** X17.  An aperture sum that is NaN (pixels masked inside the aperture)
    raises nothing: [photometry] returns a NaN magnitude, whatever the
    zeropoint. *)
Theorem photometry_nan_flux (self : Handle) coord r mode zeropoint σ pos ap a :
  (mode = "pixel" ∧ pixel_to_world (wcs self) coord = Ok pos) ∨
  (mode = "sky" ∧ ∃ ra dec, coord !! 0 = Some ra ∧ coord !! 1 = Some dec ∧
                            SkyCoord_fk5 ra dec = Ok pos) →
  SkyCircularAperture pos r = Ok ap →
  arrays σ !! hdu self = Some a →
  aperture_sum a ap (wcs self) = Ok nan →
  photometry self coord r mode zeropoint false σ
  = (Ok (mk_Photometry nan ap None), σ).
Proof.
  intros Hpos Hap Ha Hsum. unfold photometry.
  erewrite bind_ok by (apply positions_run, Hpos).
  erewrite bind_ok by reflexivity.
  erewrite bind_ok by (rewrite lift_run, Hap; reflexivity).
  erewrite bind_ok by (apply read_array_ok, Ha).
  erewrite bind_ok by (rewrite lift_run, Hsum; reflexivity).
  cbv zeta. cbn [negb]. unfold magnitude.
  change (np_log10 nan) with nan. change (-2.5 * nan)%float with nan.
  rewrite nan_add. reflexivity.
Qed.

End Readers.

Lemma photometry_sky_needs_two_witness :
  photometry Reference.image_handle [1]%float 1 "sky" 0 false Reference.loaded
  = (Err IndexError, Reference.loaded).
Proof. apply photometry_sky_needs_two. simpl. lia. Defined.


Lemma photometry_nan_flux_witness :
  photometry Reference.image_handle [0; 0]%float 900 "sky" 0 false
    Reference.after_mask
  = (Ok (mk_Photometry nan Reference.blank_aperture None), Reference.after_mask).
Proof.
  apply (photometry_nan_flux Reference.image_handle [0; 0]%float 900 "sky" 0
           Reference.after_mask (0, 0)%float Reference.blank_aperture
           Reference.image_masked).
  - right. split; [reflexivity|]. exists 0%float, 0%float. repeat split.
  - vm_refl.
  - vm_refl.
  - vm_refl.
Defined.

(** ** Export *)

Section Exporting.
Context `{L : Library}.

(** X19.  [save] on a live handle always succeeds, whether the path holds a
    file or not: afterwards the path holds one header-data unit, every other
    path holds what it held, and arrays, headers and output are unchanged.
    Saving again to the same path changes nothing more. *)
Theorem save_replaces_one_file (self : Handle) path σ a h :
  arrays σ !! hdu self = Some a →
  headers σ !! hdr self = Some h →
  ∃ σ1,
    save self path σ = (Ok tt, σ1) ∧
    files σ1 !! path = Some [(a, primary_header a h)] ∧
    (∀ other, other ≠ path → files σ1 !! other = files σ !! other) ∧
    arrays σ1 = arrays σ ∧ headers σ1 = headers σ ∧ out σ1 = out σ ∧
    save self path σ1 = (Ok tt, σ1).
Proof.
  intros Ha Hh. eexists. split; [apply save_run; eassumption|].
  cbn [files arrays headers out]. repeat split.
  - apply lookup_insert_eq.
  - intros other Hother. apply lookup_insert_ne. congruence.
  - rewrite (save_run self path _ a h) by assumption.
    cbn [files arrays headers out]. rewrite insert_insert_eq. reflexivity.
Qed.
End Exporting.

Lemma save_replaces_one_file_witness :
  ∃ σ1,
    save Reference.image_handle "cube.fits" Reference.loaded = (Ok tt, σ1) ∧
    files σ1 !! "cube.fits"
    = Some [(Reference.image,
             primary_header (Library := Reference.library) Reference.image
               Reference.image_header)] ∧
    (∀ other, other ≠ "cube.fits" →
       files σ1 !! other = files Reference.loaded !! other) ∧
    arrays σ1 = arrays Reference.loaded ∧
    headers σ1 = headers Reference.loaded ∧
    out σ1 = out Reference.loaded ∧
    save Reference.image_handle "cube.fits" σ1 = (Ok tt, σ1).
Proof.
  apply (save_replaces_one_file Reference.image_handle "cube.fits"
           Reference.loaded Reference.image Reference.image_header); vm_refl.
Defined.

(** ** The helpers *)

Section Gamma.
Context `{L : Library} `{P : Palettes}.

Lemma getrow_elem {A} (rows : list A) k r : getrow rows k = inr r → r ∈ rows.
Proof.
  unfold getrow. destruct (_ && _)%Z; [|discriminate].
  destruct (rows !! _) as [r'|] eqn:Hrow; [|discriminate].
  intros [= <-]. eapply list_elem_of_lookup_2. exact Hrow.
Qed.

Lemma getrow_nonnegative {A} (rows : list A) (i : nat) :
  i < length rows → getrow rows (Z.of_nat i) = match rows !! i with
                                                | Some r => inr r
                                                | None => inl (Raised IndexError)
                                                end.
Proof.
  intros Hi. unfold getrow.
  assert ((Z.of_nat i <? 0)%Z = false) as -> by lia.
  assert (((0 <=? Z.of_nat i) && (Z.of_nat i <? Z.of_nat (length rows)))%Z = true)
    as -> by lia.
  rewrite Nat2Z.id. reflexivity.
Qed.

(** The loop writes the row [i] for each index [i] of its list in turn and
    nothing else: lengths are kept, rows outside the list stay, and the row
    at an index of the list is the row of the palette that index maps to. *)
Lemma recolour_rows {A} (de_color : list A) gamma : ∀ todo newcolors result,
  NoDup todo →
  recolour de_color gamma todo newcolors = inr result →
  length result = length newcolors ∧
  (∀ j, j ∉ todo → result !! j = newcolors !! j) ∧
  (∀ i, i ∈ todo →
     ∃ k r, gamma_index gamma i = inr k ∧ getrow de_color k = inr r ∧
            result !! i = Some r).
Proof.
  induction todo as [|i todo IH]; intros newcolors result Hnodup Hrun.
  - injection Hrun as <-. repeat split; auto. intros i Hi. inversion Hi.
  - cbn [recolour] in Hrun. unfold and_then in Hrun.
    destruct (gamma_index gamma i) as [e|k] eqn:Hk; [discriminate|].
    destruct (getrow de_color k) as [e|r] eqn:Hr; [discriminate|].
    unfold setrow in Hrun.
    destruct (Nat.ltb_spec i (length newcolors)) as [Hi|Hi]; [|discriminate].
    apply NoDup_cons in Hnodup as [Hfresh Hnodup].
    destruct (IH _ _ Hnodup Hrun) as (Hlen & Hkeep & Hset).
    rewrite length_insert in Hlen.
    repeat split; [exact Hlen | |].
    + intros j Hj. apply not_elem_of_cons in Hj as [Hji Hj].
      rewrite Hkeep by exact Hj. apply list_lookup_insert_ne. congruence.
    + intros j Hj. apply elem_of_cons in Hj as [-> | Hj]; [|auto].
      exists k, r. repeat split; auto.
      rewrite Hkeep by exact Hfresh. apply list_lookup_insert_eq. exact Hi.
Qed.

(** X20.  When [gamma_correction] returns, the new colour map has as many
    rows as the sampled palette and every one of its rows is a row of that
    palette: the correction only moves colours, it never makes one. *)
Theorem gamma_correction_moves_colours colorbar gamma de_color newcolors :
  sample_cmap colorbar 256 = inr de_color →
  gamma_correction colorbar gamma = inr newcolors →
  length newcolors = length de_color ∧
  (∀ c, c ∈ newcolors → c ∈ de_color).
Proof.
  intros Hsample Hrun. unfold gamma_correction in Hrun.
  rewrite Hsample in Hrun. cbn [and_then] in Hrun.
  destruct (recolour_rows de_color gamma (seq 0 256) de_color newcolors)
    as (Hlen & Hkeep & Hset); [apply NoDup_seq | exact Hrun |].
  split; [exact Hlen|].
  intros c Hc. apply list_elem_of_lookup in Hc as [j Hj].
  destruct (decide (j ∈ seq 0 256)) as [Hin | Hout].
  - destruct (Hset j Hin) as (k & r & _ & Hr & Hjr).
    assert (c = r) as -> by congruence. eapply getrow_elem, Hr.
  - rewrite Hkeep in Hj by exact Hout. eapply list_elem_of_lookup_2, Hj.
Qed.

(** X21.  For a power routine with 0**gamma = 0 and 1**gamma = 1 (every
    positive gamma) the correction keeps the two ends of a palette of 256
    rows: row 0 and row 255 of the new map are row 0 and row 255 of the
    old one. *)
Theorem gamma_correction_keeps_ends colorbar gamma de_color newcolors :
  sample_cmap colorbar 256 = inr de_color →
  length de_color = 256 →
  np_power 0 gamma = 0%float →
  np_power 1 gamma = 1%float →
  gamma_correction colorbar gamma = inr newcolors →
  newcolors !! 0 = de_color !! 0 ∧ newcolors !! 255 = de_color !! 255.
Proof.
  intros Hsample Hlen Hzero Hone Hrun. unfold gamma_correction in Hrun.
  rewrite Hsample in Hrun. cbn [and_then] in Hrun.
  destruct (recolour_rows de_color gamma (seq 0 256) de_color newcolors)
    as (_ & _ & Hset); [apply NoDup_seq | exact Hrun |].
  assert (gamma_index gamma 0 = inr 0%Z) as Hfirst.
  { unfold gamma_index.
    change (float_of_count 0 / 255)%float with 0%float. rewrite Hzero.
    reflexivity. }
  assert (gamma_index gamma 255 = inr 255%Z) as Hlast.
  { unfold gamma_index.
    change (float_of_count 255 / 255)%float with 1%float. rewrite Hone.
    reflexivity. }
  split.
  - destruct (Hset 0) as (k & r & Hk & Hr & ->); [apply elem_of_seq; lia|].
    rewrite Hfirst in Hk. injection Hk as <-.
    change 0%Z with (Z.of_nat 0) in Hr.
    rewrite (getrow_nonnegative de_color 0) in Hr by lia.
    destruct (de_color !! 0); congruence.
  - destruct (Hset 255) as (k & r & Hk & Hr & ->); [apply elem_of_seq; lia|].
    rewrite Hlast in Hk. injection Hk as <-.
    change 255%Z with (Z.of_nat 255) in Hr.
    rewrite (getrow_nonnegative de_color 255) in Hr by lia.
    destruct (de_color !! 255); congruence.
Qed.

(** X22.  The first index is [int(255 * 0**gamma)]: when the power of zero
    is infinite (a negative gamma) [gamma_correction] raises
    [OverflowError], and when it is NaN it raises [ValueError], at the first
    round of the loop and for every palette. *)
Theorem gamma_correction_bad_power colorbar gamma de_color :
  sample_cmap colorbar 256 = inr de_color →
  (np_power 0 gamma = infinity →
   gamma_correction colorbar gamma = inl OverflowError)
  ∧ (np_power 0 gamma = nan →
     gamma_correction colorbar gamma = inl (Raised ValueError)).
Proof.
  intros Hsample. unfold gamma_correction. rewrite Hsample.
  cbn [and_then seq recolour]. unfold gamma_index.
  change (float_of_count 0 / 255)%float with 0%float.
  split; intros ->; reflexivity.
Qed.

(** X23.  [plot_beam] needs the three beam keywords: it raises [KeyError]
    for the first of BMAJ, BMIN and BPA that the header lacks and adds no
    patch; with three float cards it adds an ellipse whose width is the
    minor axis and whose height is the major axis, both in arcsec, turned
    by minus the position angle. *)
Theorem plot_beam_keywords (h : header) xy :
  (h !! "BMAJ" = None → plot_beam h xy = inl (Raised (KeyError "BMAJ")))
  ∧ (∀ bmaj, h !! "BMAJ" = Some (CFloat bmaj) → h !! "BMIN" = None →
       plot_beam h xy = inl (Raised (KeyError "BMIN")))
  ∧ (∀ bmaj bmin, h !! "BMAJ" = Some (CFloat bmaj) →
       h !! "BMIN" = Some (CFloat bmin) → h !! "BPA" = None →
       plot_beam h xy = inl (Raised (KeyError "BPA")))
  ∧ (∀ bmaj bmin bpa, h !! "BMAJ" = Some (CFloat bmaj) →
       h !! "BMIN" = Some (CFloat bmin) → h !! "BPA" = Some (CFloat bpa) →
       plot_beam h xy
       = inr ((3600 * bmaj, 3600 * bmin, bpa)%float,
              mk_Ellipse xy (3600 * bmin) (3600 * bmaj) (- bpa)%float)).
Proof.
  unfold plot_beam, beam_axis, beam_angle. repeat split.
  - intros ->. reflexivity.
  - intros bmaj -> ->. reflexivity.
  - intros bmaj bmin -> -> ->. reflexivity.
  - intros bmaj bmin bpa -> -> ->. reflexivity.
Qed.
End Gamma.

Lemma gamma_correction_moves_colours_witness :
  length Reference.ramp_gamma2 = length (seq 0 256) ∧
  (∀ c, c ∈ Reference.ramp_gamma2 → c ∈ seq 0 256).
Proof.
  apply (gamma_correction_moves_colours (L := Reference.library)
           (P := Reference.palettes) "gray" 2).
  - reflexivity.
  - vm_refl.
Defined.

Lemma gamma_correction_keeps_ends_witness :
  Reference.ramp_gamma2 !! 0 = seq 0 256 !! 0 ∧
  Reference.ramp_gamma2 !! 255 = seq 0 256 !! 255.
Proof.
  apply (gamma_correction_keeps_ends (L := Reference.library)
           (P := Reference.palettes) "gray" 2).
  - reflexivity.
  - vm_refl.
  - vm_refl.
  - vm_refl.
  - vm_refl.
Defined.

Lemma gamma_correction_bad_power_witness :
  gamma_correction (L := Reference.library) (P := Reference.palettes) "gray" (-1)
  = inl OverflowError.
Proof.
  apply (proj1 (gamma_correction_bad_power (L := Reference.library)
                  (P := Reference.palettes) "gray" (-1) (seq 0 256) eq_refl)).
  vm_refl.
Defined.

Lemma plot_beam_keywords_witness :
  plot_beam Reference.beam_header (2, 2)%float
  = inr ((3600 * 0.5, 3600 * 0.25, 30)%float,
         mk_Ellipse (2, 2)%float (3600 * 0.25) (3600 * 0.5) (- 30)%float)
  ∧ plot_beam Reference.image_header (2, 2)%float = inl (Raised (KeyError "BMAJ")).
Proof.
  split.
  - apply (proj2 (proj2 (proj2 (plot_beam_keywords Reference.beam_header
                                  (2, 2)%float)))); vm_refl.
  - apply (proj1 (plot_beam_keywords Reference.image_header (2, 2)%float)).
    vm_refl.
Defined.
